(** * BookScout: cataloging pipeline, batch orchestrator, catalog store and
      export serializer

    A shallow embedding of the TypeScript sources
    ([App.tsx], [services/geminiService.ts], [types.ts]) together with the
    properties of the specification that concern them.

    Modelling conventions.
    - JavaScript strings are [string]s of 8-bit characters.  The
      regular-expression classes used by the source ([\d], [a-z0-9]) are
      ASCII classes in JavaScript as well.  Case mapping ([toLowerCase],
      [toUpperCase]) is modelled on the ASCII range only, where JavaScript
      maps character by character; outside ASCII JavaScript's mapping is
      Unicode-wide and may change the length of a text, which the model
      does not follow.  Every statement that depends on the value of a
      case mapping is therefore stated for ASCII text ([ascii_text]).
    - JavaScript numbers are IEEE 754 binary64 values, modelled by the
      primitive floats: the cropper's arithmetic rounds, overflows to an
      infinity and produces NaN as in the source.  The intrinsic pixel
      dimensions of an image are natural numbers.
    - [async] functions that may reject are functions into [Completion]
      (a thrown error or a normal value); [try]/[catch] is [try_catch].
    - The external services (vision identification, synopsis generation,
      image decoding, canvas encoding) are oracles: each call site receives
      the outcome of the call as an argument.
    - React state is passed explicitly; a functional update
      [setX(prev => f prev)] is the application of [f] to the current state.
      A handler runs without operator events interleaved between its
      updates. *)

From Stdlib Require Import String Ascii List Bool Arith Lia Permutation.
From Stdlib Require Import ZArith DecimalString.
From Stdlib Require Import PrimFloat FloatClass Uint63.
Import ListNotations.

Local Open Scope string_scope.
Local Open Scope list_scope.

(** ** JavaScript string primitives *)

Module JS.

Definition is_upper (c : ascii) : bool :=
  (65 <=? nat_of_ascii c)%nat && (nat_of_ascii c <=? 90)%nat.

Definition is_lower (c : ascii) : bool :=
  (97 <=? nat_of_ascii c)%nat && (nat_of_ascii c <=? 122)%nat.

Definition is_alpha (c : ascii) : bool := is_upper c || is_lower c.

Definition is_digit (c : ascii) : bool :=
  (48 <=? nat_of_ascii c)%nat && (nat_of_ascii c <=? 57)%nat.

Definition lower_char (c : ascii) : ascii :=
  if is_upper c then ascii_of_nat (nat_of_ascii c + 32) else c.

Definition upper_char (c : ascii) : ascii :=
  if is_lower c then ascii_of_nat (nat_of_ascii c - 32) else c.

Fixpoint map_chars (f : ascii -> ascii) (s : string) : string :=
  match s with
  | EmptyString => EmptyString
  | String c rest => String (f c) (map_chars f rest)
  end.

Fixpoint filter_chars (p : ascii -> bool) (s : string) : string :=
  match s with
  | EmptyString => EmptyString
  | String c rest =>
      if p c then String c (filter_chars p rest) else filter_chars p rest
  end.

Fixpoint forall_chars (p : ascii -> bool) (s : string) : bool :=
  match s with
  | EmptyString => true
  | String c rest => p c && forall_chars p rest
  end.

Fixpoint exists_char (p : ascii -> bool) (s : string) : bool :=
  match s with
  | EmptyString => false
  | String c rest => p c || exists_char p rest
  end.

(** [s.toLowerCase()] and [s.toUpperCase()]. *)
Definition toLowerCase : string -> string := map_chars lower_char.
Definition toUpperCase : string -> string := map_chars upper_char.

(** [s.charAt(0)]: the first character as a string, or the empty string. *)
Definition charAt0 (s : string) : string :=
  match s with
  | EmptyString => EmptyString
  | String c _ => String c EmptyString
  end.

(** [s.slice(1)]. *)
Definition slice1 (s : string) : string :=
  match s with
  | EmptyString => EmptyString
  | String _ rest => rest
  end.

(** [s.split(sep)] for a one-character separator: never the empty list,
    and [''.split(sep)] is [['']]. *)
Fixpoint split (sep : ascii) (s : string) : list string :=
  match s with
  | EmptyString => [EmptyString]
  | String c rest =>
      if Ascii.eqb c sep then EmptyString :: split sep rest
      else match split sep rest with
           | [] => [String c EmptyString]
           | w :: ws => String c w :: ws
           end
  end.

(** [xs.join(sep)]. *)
Definition join (sep : string) (xs : list string) : string :=
  String.concat sep xs.

(** [!s] on a string: true exactly for the empty string. *)
Definition falsy (s : string) : bool :=
  match s with
  | EmptyString => true
  | String _ _ => false
  end.

(** [s.replace(/c/g, r)]: every occurrence of the character [c] replaced
    by the string [r]. *)
Fixpoint replace_all (c : ascii) (r : string) (s : string) : string :=
  match s with
  | EmptyString => EmptyString
  | String d rest =>
      if Ascii.eqb d c then r ++ replace_all c r rest
      else String d (replace_all c r rest)
  end.

(** [s.startsWith(p)]. *)
Definition startsWith (p s : string) : bool := String.prefix p s.

(** The longest prefix of [s] whose characters all satisfy [p], and what
    follows it. *)
Fixpoint span (p : ascii -> bool) (s : string) : string * string :=
  match s with
  | EmptyString => (EmptyString, EmptyString)
  | String c rest =>
      if p c then let (a, b) := span p rest in (String c a, b)
      else (EmptyString, s)
  end.

End JS.

(** ** Title Caser and Price Extractor ([App.tsx]) *)

(** [word => word.charAt(0).toUpperCase() + word.slice(1)] *)
Definition capitalize (word : string) : string :=
  JS.toUpperCase (JS.charAt0 word) ++ JS.slice1 word.

Definition toTitleCase (str : string) : string :=
  if JS.falsy str then EmptyString
  else JS.join " " (map capitalize (JS.split " " (JS.toLowerCase str))).

(** [filename.match(/^(\d+)/)]: the match array (here its capture group 1)
    or [null]. *)
Definition match_leading_digits (filename : string) : option string :=
  match fst (JS.span JS.is_digit filename) with
  | EmptyString => None
  | run => Some run
  end.

Definition extractPriceFromFilename (filename : string) : string :=
  match match_leading_digits filename with
  | Some m1 => m1
  | None => EmptyString
  end.

(** ** Completions of fallible ([async], throwing) code *)

Inductive Completion (A : Type) : Type :=
| Throw (message : string)
| Return (value : A).

Arguments Throw {A} message.
Arguments Return {A} value.

Definition bind {A B : Type} (m : Completion A) (k : A -> Completion B)
  : Completion B :=
  match m with
  | Throw e => Throw e
  | Return a => k a
  end.

(** [try { body } catch (error) { handler }] *)
Definition try_catch {A : Type} (body : Completion A)
    (handler : string -> Completion A) : Completion A :=
  match body with
  | Throw e => handler e
  | Return a => Return a
  end.

Notation "x <- m ;; k" := (bind m (fun x => k))
  (at level 61, m at next level, right associativity).

(** ** Data model ([types.ts]) *)

Record BookData := mkBookData {
  title : string;
  author : string;
  synopsis : string;
  price : string;
  category : string
}.

(** Every field is optional: [None] is [undefined]. *)
Record BookAnalysisResult := mkBookAnalysisResult {
  r_title : option string;
  r_author : option string;
  r_box_2d : option (list float);
  r_categories : option (list string);
  r_category : option string;
  r_price : option string;
  r_synopsis : option string
}.

(** [HistoryItem extends BookData]: the inherited fields are [h_data]. *)
Record HistoryItem := mkHistoryItem {
  h_data : BookData;
  h_id : string;
  h_image : string;
  h_timestamp : nat
}.

(** The parts of a browser [File] the program reads: its name, and the data
    URL that [FileReader.readAsDataURL] delivers for it.  The handlers of
    the source wait for the read without an error path: they are modelled
    for reads that complete. *)
Record File := mkFile {
  file_name : string;
  file_dataURL : string
}.

Inductive BulkStatus := idle | processing | completed | error.

Record BulkImportItem := mkBulkImportItem {
  b_id : string;
  b_file : File;
  b_previewUrl : string;
  b_status : BulkStatus;
  b_data : BookData;
  b_processedImage : option string;
  b_error : option string
}.

Inductive AppStatus :=
  IDLE | ANALYZING_IMAGE | SEARCHING_SYNOPSIS | COMPLETED | ERROR.

Record ProcessingError := mkProcessingError { message : string }.

(** ** The outside world of one pipeline run

    What the browser and the remote services answer during one call of
    [processImagePipeline]. *)

(** The [text] getter of a [generateContent] response: [None] is
    [undefined]. *)
Record GenerateContentResponse := mkResponse { text : option string }.

(** A decoded image: [img.naturalWidth], [img.naturalHeight]. *)
Record Image := mkImage {
  naturalWidth : nat;
  naturalHeight : nat
}.

(** The source rectangle handed to [drawImage]. *)
Record CropRect := mkCropRect {
  crop_x : float;
  crop_y : float;
  crop_w : float;
  crop_h : float
}.

Record World := mkWorld {
  (** [ai.models.generateContent] of [identifyBookFromImage], by image. *)
  vision : string -> Completion GenerateContentResponse;
  (** [JSON.parse(text) as BookAnalysisResult], for payloads that have
      the declared shape: the parse throws, or yields a record whose
      fields, when present, have their declared types.  The cast of the
      source is unchecked; a payload of another shape ([null], a numeric
      title) is outside the model. *)
  JSON_parse : string -> Completion BookAnalysisResult;
  (** [ai.models.generateContent] of [findOrGenerateSynopsis], by title and
      author (which determine the prompt). *)
  search : string -> string -> Completion GenerateContentResponse;
  (** Loading [img.src = base64]: [Some] is [onload], [None] is [onerror]. *)
  decode : string -> option Image;
  (** The canvas steps of [cropImage]: an exception, no 2d context
      ([None]), or the JPEG data URL of the drawn region. *)
  canvas : string -> CropRect -> Completion (option string)
}.

(** ** Gemini service adapters ([services/geminiService.ts]) *)

(** [!text] for [text : string | undefined]. *)
Definition no_text (t : option string) : bool :=
  match t with
  | None => true
  | Some s => JS.falsy s
  end.

Definition identifyBookFromImage (w : World) (base64Image : string)
  : Completion BookAnalysisResult :=
  try_catch
    (response <- vision w base64Image ;;
     match text response with
     | Some t =>
         if JS.falsy t then Throw "No data returned from Gemini Vision."
         else JSON_parse w t
     | None => Throw "No data returned from Gemini Vision."
     end)
    (fun _ => Throw "Failed to identify book from image.").

Definition is_space (c : ascii) : bool :=
  let n := nat_of_ascii c in
  ((9 <=? n)%nat && (n <=? 13)%nat) || (n =? 32)%nat.

Fixpoint trim_start (s : string) : string :=
  match s with
  | EmptyString => EmptyString
  | String c rest => if is_space c then trim_start rest else s
  end.

Fixpoint trim_end (s : string) : string :=
  match s with
  | EmptyString => EmptyString
  | String c rest =>
      match trim_end rest with
      | EmptyString => if is_space c then EmptyString else String c EmptyString
      | rest' => String c rest'
      end
  end.

(** [s.trim()], for ASCII white space (JavaScript also strips the
    Unicode white space characters). *)
Definition trim (s : string) : string := trim_end (trim_start s).

Definition synopsis_placeholder : string :=
  "Could not retrieve synopsis due to an error.".

Definition findOrGenerateSynopsis (w : World) (title author : string)
  : Completion string :=
  try_catch
    (response <- search w title author ;;
     match text response with
     | Some t =>
         if JS.falsy t then Return "Synopsis could not be generated."
         else Return (trim t)
     | None => Return "Synopsis could not be generated."
     end)
    (fun _ => Return synopsis_placeholder).

(** ** Image Cropper ([App.tsx]) *)

(** JavaScript numbers. *)
Module Num.

(** A non-negative integer as a number, for the pixel dimensions of an
    image (unsigned 32-bit values in the browser): exact below [2^53]. *)
Definition of_nat (n : nat) : float :=
  PrimFloat.of_uint63 (Uint63.of_Z (Z.of_nat n)).

(** [Math.max(a, b)]: NaN when an argument is NaN; [+0] is larger than
    [-0]. *)
Definition max (a b : float) : float :=
  if PrimFloat.is_nan a || PrimFloat.is_nan b then PrimFloat.nan
  else if PrimFloat.ltb a b then b
  else if PrimFloat.ltb b a then a
  else match PrimFloat.classify a with
       | NZero => b
       | _ => a
       end.

(** [Math.min(a, b)]: NaN when an argument is NaN; [-0] is smaller than
    [+0]. *)
Definition min (a b : float) : float :=
  if PrimFloat.is_nan a || PrimFloat.is_nan b then PrimFloat.nan
  else if PrimFloat.ltb a b then a
  else if PrimFloat.ltb b a then b
  else match PrimFloat.classify a with
       | NZero => a
       | _ => b
       end.

End Num.

(** [[ymin, xmin, ymax, xmax]]: the only call site of [cropImage] passes
    an array of exactly four numbers. *)
Record BoundingBox := mkBox {
  ymin : float;
  xmin : float;
  ymax : float;
  xmax : float
}.

(** The rectangle computed in [img.onload] before the degeneracy test. *)
Definition cropRect (img : Image) (box : BoundingBox) : CropRect :=
  let height := Num.of_nat (naturalHeight img) in
  let width := Num.of_nat (naturalWidth img) in
  let y := ((ymin box / 1000) * height)%float in
  let x := ((xmin box / 1000) * width)%float in
  let h := (((ymax box - ymin box) / 1000) * height)%float in
  let w := (((xmax box - xmin box) / 1000) * width)%float in
  let x := Num.max 0%float x in
  let y := Num.max 0%float y in
  let w := Num.min (width - x)%float w in
  let h := Num.min (height - y)%float h in
  mkCropRect x y w h.

(** [w <= 0 || h <= 0]; a comparison with NaN is false. *)
Definition degenerate (r : CropRect) : bool :=
  (crop_w r <=? 0)%float || (crop_h r <=? 0)%float.

(** The promise returned by [cropImage] is only ever resolved, never
    rejected: the function is total. *)
Definition cropImage (w : World) (base64 : string) (box : BoundingBox)
  : string :=
  match decode w base64 with
  | None => base64
  | Some img =>
      let r := cropRect img box in
      if degenerate r then base64
      else match canvas w base64 r with
           | Return (Some jpeg) => jpeg
           | Return None => base64
           | Throw _ => base64
           end
  end.

(** ** Cataloging Pipeline ([App.tsx]) *)

Record PipelineResult := mkPipelineResult {
  p_title : string;
  p_author : string;
  p_category : string;
  p_synopsis : string;
  p_processedImage : string
}.

(** [value || fallback] for [value : string | undefined]. *)
Definition or_else (value : option string) (fallback : string) : string :=
  match value with
  | Some s => if JS.falsy s then fallback else s
  | None => fallback
  end.

(** The category string of [processImagePipeline]. *)
Definition pipelineCategory (identity : BookAnalysisResult) : string :=
  match r_categories identity with
  | Some (c :: cs) => JS.join ", " (c :: cs)
  | _ =>
      match r_category identity with
      | Some single => if JS.falsy single then EmptyString else single
      | None => EmptyString
      end
  end.

(** [identity.box_2d && identity.box_2d.length === 4] *)
Definition box_of (box_2d : option (list float)) : option BoundingBox :=
  match box_2d with
  | Some [a; b; c; d] => Some (mkBox a b c d)
  | _ => None
  end.

(** The optional [onStep] callback only reports progress to the caller and
    is left out. *)
Definition processImagePipeline (w : World) (base64Image : string)
    (autoCrop : bool) : Completion PipelineResult :=
  identity <- identifyBookFromImage w base64Image ;;
  let title := toTitleCase (or_else (r_title identity) "Unknown Title") in
  let author := toTitleCase (or_else (r_author identity) "Unknown Author") in
  let category := pipelineCategory identity in
  let processedImage :=
    if autoCrop then
      match box_of (r_box_2d identity) with
      | Some box => cropImage w base64Image box
      | None => base64Image
      end
    else base64Image in
  synopsis <- findOrGenerateSynopsis w title author ;;
  Return (mkPipelineResult title author category synopsis processedImage).

(** ** Single-item scanner ([App.tsx]) *)

Record Scanner := mkScanner {
  s_image : option string;
  s_status : AppStatus;
  s_bookData : option BookData;
  s_error : option ProcessingError;
  s_autoCrop : bool
}.

Definition handleScannerFileSelected (w : World) (files : list File)
    (st : Scanner) : Scanner :=
  match files with
  | [] => st
  | file :: _ =>
      let extractedPrice := extractPriceFromFilename (file_name file) in
      let base64 := file_dataURL file in
      match processImagePipeline w base64 (s_autoCrop st) with
      | Return result =>
          mkScanner
            (Some (p_processedImage result))
            COMPLETED
            (Some (mkBookData (p_title result) (p_author result)
                     (p_synopsis result) extractedPrice (p_category result)))
            None
            (s_autoCrop st)
      | Throw msg =>
          mkScanner
            (Some base64)
            ERROR
            None
            (Some (mkProcessingError
                     (if JS.falsy msg then "An unexpected error occurred."
                      else msg)))
            (s_autoCrop st)
      end
  end.

(** ** Batch Orchestrator ([App.tsx]) *)

Record Bulk := mkBulk {
  bulkItems : list BulkImportItem;
  isBulkProcessing : bool
}.

Fixpoint mapi_from {A B : Type} (n : nat) (f : nat -> A -> B) (l : list A)
  : list B :=
  match l with
  | [] => []
  | a :: rest => f n a :: mapi_from (S n) f rest
  end.

(** [randomUUID k] and [createObjectURL k] are what the [k]-th call of
    [crypto.randomUUID()] and of [URL.createObjectURL] return. *)
Definition handleBulkFilesSelected (randomUUID createObjectURL : nat -> string)
    (files : list File) (st : Bulk) : Bulk :=
  let newItems :=
    mapi_from 0 (fun k file =>
      mkBulkImportItem (randomUUID k) file (createObjectURL k) idle
        (mkBookData EmptyString EmptyString EmptyString
           (extractPriceFromFilename (file_name file)) EmptyString)
        None None) files in
  mkBulk (bulkItems st ++ newItems) (isBulkProcessing st).

Definition is_idle (i : BulkImportItem) : bool :=
  match b_status i with
  | idle => true
  | _ => false
  end.

(** [{ ...i, status: 'processing' }] *)
Definition mark_processing (i : BulkImportItem) : BulkImportItem :=
  mkBulkImportItem (b_id i) (b_file i) (b_previewUrl i) processing
    (b_data i) (b_processedImage i) (b_error i).

(** [{ ...i, status: 'completed',
       data: { ...i.data, ...result, price: i.data.price },
       processedImage: result.processedImage }] *)
Definition mark_completed (result : PipelineResult) (i : BulkImportItem)
  : BulkImportItem :=
  mkBulkImportItem (b_id i) (b_file i) (b_previewUrl i) completed
    (mkBookData (p_title result) (p_author result) (p_synopsis result)
       (price (b_data i)) (p_category result))
    (Some (p_processedImage result)) (b_error i).

(** [{ ...i, status: 'error', error: 'Failed' }] *)
Definition mark_error (i : BulkImportItem) : BulkImportItem :=
  mkBulkImportItem (b_id i) (b_file i) (b_previewUrl i) error
    (b_data i) (b_processedImage i) (Some "Failed").

(** [prev.map(i => i.id === id ? f i : i)] *)
Definition update_by_id (id : string) (f : BulkImportItem -> BulkImportItem)
    (prev : list BulkImportItem) : list BulkImportItem :=
  map (fun i => if String.eqb (b_id i) id then f i else i) prev.

(** The [for (const item of itemsToProcess)] loop; [worlds n] is the
    outside world during the [n]-th pipeline call of the run, [state] the
    current [bulkItems]. *)
Fixpoint bulkLoop (worlds : nat -> World) (autoCrop : bool) (n : nat)
    (itemsToProcess : list BulkImportItem) (state : list BulkImportItem)
  : list BulkImportItem :=
  match itemsToProcess with
  | [] => state
  | item :: rest =>
      let state := update_by_id (b_id item) mark_processing state in
      let base64 := file_dataURL (b_file item) in
      let state :=
        match processImagePipeline (worlds n) base64 autoCrop with
        | Return result => update_by_id (b_id item) (mark_completed result) state
        | Throw _ => update_by_id (b_id item) mark_error state
        end in
      bulkLoop worlds autoCrop (S n) rest state
  end.

Definition startBulkProcessing (worlds : nat -> World) (autoCrop : bool)
    (st : Bulk) : Bulk :=
  let itemsToProcess := filter is_idle (bulkItems st) in
  mkBulk (bulkLoop worlds autoCrop 0 itemsToProcess (bulkItems st)) false.

(** ** Catalog Store ([App.tsx]) *)

Inductive Tab := scanner | bulk | uploads | archivedTab.

Record Store := mkStore {
  history : list HistoryItem;
  archived : list HistoryItem;
  activeTab : Tab
}.

Definition has_id (id : string) (item : HistoryItem) : bool :=
  String.eqb (h_id item) id.

Definition restoreArchivedItem (id : string) (st : Store) : Store :=
  match find (has_id id) (archived st) with
  | Some itemToRestore =>
      mkStore (itemToRestore :: history st)
              (filter (fun item => negb (has_id id item)) (archived st))
              (activeTab st)
  | None => st
  end.

(** ** Export Serializer ([App.tsx]) *)

Module Exporter.

Definition str (c : ascii) : string := String c EmptyString.

Definition dquote : ascii := ascii_of_nat 34.
Definition comma : ascii := ascii_of_nat 44.
Definition slash : ascii := ascii_of_nat 47.
Definition semicolon : ascii := ascii_of_nat 59.
Definition underscore : ascii := ascii_of_nat 95.
Definition newline : string := str (ascii_of_nat 10).

(** The separator of the post title: space, en dash (three bytes in
    UTF-8), space. *)
Definition en_dash_sep : string :=
  String " " (String (ascii_of_nat 226) (String (ascii_of_nat 128)
    (String (ascii_of_nat 147) (String " " EmptyString)))).

(** The local [escape] helper: empty text gives an empty cell, any other
    text is wrapped in quotes with its quotes doubled. *)
Definition escape (text : string) : string :=
  if JS.falsy text then EmptyString
  else (str dquote
          ++ JS.replace_all dquote (String dquote (str dquote)) text
          ++ str dquote)%string.

Definition headers : list string :=
  [ "parent_sku"; "sku"; "post_title"; "post_excerpt"; "post_content";
    "post_status"; "regular_price"; "sale_price"; "stock_status"; "stock";
    "manage_stock"; "weight"; "Images"; "tax:product_type";
    "tax:product_cat"; "tax:product_tag" ].

(** [s.indexOf(c)]: [-1] when absent. *)
Fixpoint indexOf (c : ascii) (s : string) : Z :=
  match s with
  | EmptyString => (-1)%Z
  | String d rest =>
      if Ascii.eqb d c then 0%Z
      else let i := indexOf c rest in
           if (i <? 0)%Z then (-1)%Z else (i + 1)%Z
  end.

(** [s.substring(start, end)]: both indices clamped to the string, and
    swapped when [start > end]. *)
Definition substring (s : string) (start end_ : Z) : string :=
  let len := Z.of_nat (String.length s) in
  let clamp i := Z.max 0 (Z.min i len) in
  let lo := Z.min (clamp start) (clamp end_) in
  let hi := Z.max (clamp start) (clamp end_) in
  String.substring (Z.to_nat lo) (Z.to_nat (hi - lo)) s.

Definition is_slug_char (c : ascii) : bool := JS.is_lower c || JS.is_digit c.

(** [s.replace(/[^a-z0-9]+/g, '_')]; [in_run] tells that the previous
    character already belongs to the run being replaced. *)
Fixpoint collapse_runs (in_run : bool) (s : string) : string :=
  match s with
  | EmptyString => EmptyString
  | String c rest =>
      if is_slug_char c then String c (collapse_runs false rest)
      else if in_run then collapse_runs true rest
      else String underscore (collapse_runs true rest)
  end.

Fixpoint strip_leading (c : ascii) (s : string) : string :=
  match s with
  | EmptyString => EmptyString
  | String d rest => if Ascii.eqb d c then strip_leading c rest else s
  end.

Fixpoint strip_trailing (c : ascii) (s : string) : string :=
  match s with
  | EmptyString => EmptyString
  | String d rest =>
      match strip_trailing c rest with
      | EmptyString => if Ascii.eqb d c then EmptyString else str d
      | rest' => String d rest'
      end
  end.

(** [title.trim().toLowerCase().replace(/[^a-z0-9]+/g, '_')
         .replace(/^_+|_+$/g, '')] *)
Definition safeTitle (title : string) : string :=
  strip_trailing underscore
    (strip_leading underscore
       (collapse_runs false (JS.toLowerCase (trim title)))).

(** [image.replace(/^data:image\/(png|jpeg|jpg|webp);base64,/, '')] *)
Fixpoint strip_first_prefix (prefixes : list string) (s : string) : string :=
  match prefixes with
  | [] => s
  | p :: rest =>
      if JS.startsWith p s
      then String.substring (String.length p)
             (String.length s - String.length p)%nat s
      else strip_first_prefix rest s
  end.

Definition base64Data (image : string) : string :=
  strip_first_prefix
    [ "data:image/png;base64,"; "data:image/jpeg;base64,";
      "data:image/jpg;base64,"; "data:image/webp;base64," ] image.

(** [new Date()]: [getFullYear()] and [getMonth()] (0 to 11). *)
Record Date := mkDate { fullYear : nat; monthIndex : nat }.

Definition decimal (n : nat) : string :=
  DecimalString.NilZero.string_of_uint (Nat.to_uint n).

(** [s.padStart(2, '0')] *)
Definition padStart2 (s : string) : string :=
  match String.length s with
  | O => "00"
  | S O => String "0" s
  | _ => s
  end.

Definition baseUrl (date : Date) : string :=
  ("https://hemingwaysbooks.co.za/wp-content/uploads/"
     ++ decimal (fullYear date) ++ "/"
     ++ padStart2 (decimal (monthIndex date + 1)%nat) ++ "/")%string.

(** The name under which the image of [item] enters the archive file; the
    empty string when the entry carries no embedded image. *)
(** [item.image && item.image.startsWith('data:image')] *)
Definition hasEmbeddedImage (item : HistoryItem) : bool :=
  negb (JS.falsy (h_image item))
  && JS.startsWith "data:image" (h_image item).

Definition imageName (item : HistoryItem) : string :=
  if hasEmbeddedImage item then
    let extension :=
      substring (h_image item)
        (indexOf slash (h_image item) + 1)
        (indexOf semicolon (h_image item)) in
    (safeTitle (title (h_data item)) ++ "_" ++ h_id item ++ "."
       ++ extension)%string
  else EmptyString.

Definition imageUrl (date : Date) (item : HistoryItem) : string :=
  if JS.falsy (imageName item) then EmptyString
  else (baseUrl date ++ imageName item)%string.

(** The cells of the row of [item], in header order. *)
Definition row (date : Date) (item : HistoryItem) : list string :=
  let d := h_data item in
  [ EmptyString;
    escape (substring (h_id item) 0 8);
    escape (title d ++ en_dash_sep ++ author d)%string;
    escape (synopsis d);
    escape (synopsis d);
    "publish";
    price d;
    EmptyString;
    "instock";
    "1";
    "yes";
    EmptyString;
    imageUrl date item;
    "simple";
    escape (JS.replace_all slash (str comma) (category d));
    escape (author d) ].

Definition csvLine (cells : list string) : string :=
  (JS.join (str comma) cells ++ newline)%string.

Definition csvContent (date : Date) (items : list HistoryItem) : string :=
  fold_left (fun acc item => (acc ++ csvLine (row date item))%string)
    items (csvLine headers).

(** The files added to the archive: one per entry with an embedded
    image, then the table. *)
Definition zipFiles (date : Date) (items : list HistoryItem)
  : list (string * string) :=
  flat_map (fun item =>
              if hasEmbeddedImage item
              then [(imageName item, base64Data (h_image item))]
              else []) items
    ++ [("products.csv", csvContent date items)].

(** [generateAsync files] is the outcome of [zip.generateAsync]: the
    promise may reject, in which case nothing after it runs. *)
Definition exportToWooCommerce (date : Date)
    (generateAsync : list (string * string) -> Completion unit)
    (st : Store) : Completion Store :=
  match history st with
  | [] => Return st
  | _ :: _ =>
      _ <- generateAsync (zipFiles date (history st)) ;;
      let justProcessed := history st in
      Return (mkStore [] (justProcessed ++ archived st) archivedTab)
  end.

End Exporter.

(** ** Specification-side notions *)

(** The words of a text, as the Title Caser delimits them. *)
Definition words (s : string) : list string := JS.split " " s.

Definition non_alpha (c : ascii) : bool := negb (JS.is_alpha c).

(** A word whose first character is not a lower-case letter and whose
    other characters are not upper-case letters. *)
Definition capitalized_word (w : string) : Prop :=
  match w with
  | EmptyString => True
  | String c rest =>
      JS.is_lower c = false /\ JS.exists_char JS.is_upper rest = false
  end.

(** What is left of a word from its first alphabetic character on. *)
Fixpoint from_first_alpha (w : string) : string :=
  match w with
  | EmptyString => EmptyString
  | String c rest => if JS.is_alpha c then w else from_first_alpha rest
  end.

(** A word whose first alphabetic character is upper case and whose later
    alphabetic characters are lower case. *)
Definition alpha_capitalized_word (w : string) : Prop :=
  match from_first_alpha w with
  | EmptyString => True
  | String c rest =>
      JS.is_upper c = true /\ JS.exists_char JS.is_upper rest = false
  end.

(** The shape property of the Title Caser with the first alphabetic
    character of each word as the capitalized one. *)
Definition title_shape_first_alpha (s : string) : Prop :=
  length (words (toTitleCase s)) = length (words s) /\
  JS.filter_chars non_alpha (toTitleCase s) = JS.filter_chars non_alpha s /\
  Forall alpha_capitalized_word (words (toTitleCase s)).

(** Title casing character by character: [start] tells that the next
    character opens a word. *)
Fixpoint titleCaseFrom (start : bool) (s : string) : string :=
  match s with
  | EmptyString => EmptyString
  | String c rest =>
      String (if start then JS.upper_char (JS.lower_char c)
              else JS.lower_char c)
             (titleCaseFrom (Ascii.eqb c " ") rest)
  end.

(** [run] is the maximal run of decimal digits at the start of [s]. *)
Definition leading_digit_run (run s : string) : Prop :=
  exists rest,
    s = (run ++ rest)%string /\
    JS.forall_chars JS.is_digit run = true /\
    match rest with
    | EmptyString => True
    | String c _ => JS.is_digit c = false
    end.

(** The category rule of the specification: empty text when no categories
    are returned, the joined labels otherwise. *)
Definition category_rule (identity : BookAnalysisResult) (out : string) : Prop :=
  match r_categories identity with
  | None | Some [] => out = EmptyString
  | Some labels => out = JS.join ", " labels
  end.

(** A world in which the vision service answers with a payload that parses
    to [identity]. *)
Definition world_identifying (identity : BookAnalysisResult) : World :=
  mkWorld (fun _ => Return (mkResponse (Some "{}")))
          (fun _ => Return identity)
          (fun _ _ => Return (mkResponse (Some "A synopsis.")))
          (fun _ => None)
          (fun _ _ => Return None).

Definition only_single_category : BookAnalysisResult :=
  mkBookAnalysisResult (Some "dune") (Some "frank herbert") None None
    (Some "Fiction") None None.


(** Standard tabular escaping of a cell. *)
Definition needs_quoting (text : string) : bool :=
  JS.exists_char
    (fun c => Ascii.eqb c Exporter.comma || Ascii.eqb c Exporter.dquote) text.

Definition quoted (text : string) : string :=
  (Exporter.str Exporter.dquote
     ++ JS.replace_all Exporter.dquote
          (String Exporter.dquote (Exporter.str Exporter.dquote)) text
     ++ Exporter.str Exporter.dquote)%string.

(** [cell] is an acceptable rendering of [text]: quote-wrapped with its
    quotes doubled whenever [text] holds a comma or a quote. *)
Definition cell_escaped (text cell : string) : Prop :=
  needs_quoting text = true -> cell = quoted text.

(** The text that each column of the row of an entry renders, in header
    order (the fixed literals included). *)
Definition rowTexts (date : Exporter.Date) (item : HistoryItem) : list string :=
  let d := h_data item in
  [ EmptyString;
    Exporter.substring (h_id item) 0 8;
    (title d ++ Exporter.en_dash_sep ++ author d)%string;
    synopsis d;
    synopsis d;
    "publish";
    price d;
    EmptyString;
    "instock";
    "1";
    "yes";
    EmptyString;
    Exporter.imageUrl date item;
    "simple";
    JS.replace_all Exporter.slash (Exporter.str Exporter.comma) (category d);
    author d ].

(** Sample catalog entries. *)
Definition dune_entry : HistoryItem :=
  mkHistoryItem
    (mkBookData "Dune" "Frank Herbert" "A desert planet." "380" "Fiction")
    "d397e01b-0828-4277-aa1a-dd7247db2426" "data:image/jpeg;base64,AAAA" 7.

Definition emma_entry : HistoryItem :=
  mkHistoryItem
    (mkBookData "Emma" "Jane Austen" "Hartfield." "120" "Classics and Poetry")
    "0c1f7a52-52c1-4e0e-9d9b-0a53b6c1f001" EmptyString 5.

Definition ulysses_entry : HistoryItem :=
  mkHistoryItem
    (mkBookData "Ulysses" "James Joyce" "Dublin." "90" "Fiction")
    "7b0e2d0a-1111-4c2e-8f00-3a9d5e7c2b10" EmptyString 1.

(** [dune_entry] after the operator typed a price with a thousands
    separator into the price cell of the history table. *)
Definition dune_entry_priced : HistoryItem :=
  mkHistoryItem
    (mkBookData "Dune" "Frank Herbert" "A desert planet." "1,250" "Fiction")
    "d397e01b-0828-4277-aa1a-dd7247db2426" "data:image/jpeg;base64,AAAA" 7.

(** Number of occurrences of a character. *)
Fixpoint count_char (c : ascii) (s : string) : nat :=
  match s with
  | EmptyString => 0%nat
  | String d rest =>
      ((if Ascii.eqb d c then 1 else 0) + count_char c rest)%nat
  end.

(** The number of pending items before position [p]: the index, within a
    run, of the pipeline call made for a pending item at position [p]. *)
Definition rank (items : list BulkImportItem) (p : nat) : nat :=
  length (filter is_idle (firstn p items)).

(** The two updates that a run applies to the item it has selected. *)
Definition settle (c : Completion PipelineResult) (i : BulkImportItem)
  : BulkImportItem :=
  match c with
  | Return result => mark_completed result (mark_processing i)
  | Throw _ => mark_error (mark_processing i)
  end.

(** What a run over [itemsToProcess], starting with pipeline call [n],
    does to one item of the state. *)
Fixpoint outcome_for (worlds : nat -> World) (autoCrop : bool) (n : nat)
    (itemsToProcess : list BulkImportItem) (i : BulkImportItem)
  : BulkImportItem :=
  match itemsToProcess with
  | [] => i
  | item :: rest =>
      if String.eqb (b_id i) (b_id item)
      then settle (processImagePipeline (worlds n)
                     (file_dataURL (b_file item)) autoCrop) i
      else outcome_for worlds autoCrop (S n) rest i
  end.

(** A world in which the vision service is unreachable. *)
Definition world_offline : World :=
  mkWorld (fun _ => Throw "network error")
          (fun _ => Throw "unused")
          (fun _ _ => Throw "network error")
          (fun _ => None)
          (fun _ _ => Return None).

(** Sample batch: three pending files. *)
Definition sample_files : list File :=
  [ mkFile "380.1.jpg" "data:image/jpeg;base64,AAAA";
    mkFile "cover.jpg" "data:image/jpeg;base64,BBBB";
    mkFile "250-back.png" "data:image/png;base64,CCCC" ].

Definition sample_uuid (k : nat) : string :=
  match k with
  | O => "id-a"
  | S O => "id-b"
  | _ => "id-c"
  end.

Definition sample_batch : Bulk :=
  handleBulkFilesSelected sample_uuid (fun _ => "blob:preview")
    sample_files (mkBulk [] false).

(** The second pipeline call of the run fails, the others succeed. *)
Definition sample_worlds (n : nat) : World :=
  match n with
  | S O => world_offline
  | _ => world_identifying only_single_category
  end.

(** ** Further handlers of [App.tsx] *)

(** [handleRegenerateSynopsis]: a new synopsis for the record on display. *)
Definition handleRegenerateSynopsis (w : World) (st : Scanner) : Scanner :=
  match s_bookData st with
  | None => st
  | Some bookData =>
      match findOrGenerateSynopsis w (title bookData) (author bookData) with
      | Return newSynopsis =>
          mkScanner (s_image st) COMPLETED
            (Some (mkBookData (title bookData) (author bookData) newSynopsis
                     (price bookData) (category bookData)))
            (s_error st) (s_autoCrop st)
      | Throw _ =>
          mkScanner (s_image st) COMPLETED (s_bookData st) (s_error st)
            (s_autoCrop st)
      end
  end.

(** [bookData && image] *)
Definition ready_to_save (st : Scanner) : option (BookData * string) :=
  match s_bookData st, s_image st with
  | Some bookData, Some image =>
      if JS.falsy image then None else Some (bookData, image)
  | _, _ => None
  end.

(** [saveBook]; [uuid] and [now] are what [crypto.randomUUID()] and
    [Date.now()] return. *)
Definition saveBook (uuid : string) (now : nat) (st : Scanner) (store : Store)
  : Scanner * Store :=
  match ready_to_save st with
  | Some (bookData, image) =>
      let newItem := mkHistoryItem bookData uuid image now in
      (mkScanner None IDLE None (s_error st) (s_autoCrop st),
       mkStore (newItem :: history store) (archived store) (activeTab store))
  | None => (st, store)
  end.

Definition is_completed (i : BulkImportItem) : bool :=
  match b_status i with
  | completed => true
  | _ => false
  end.

(** The history entry made of a completed batch item.  The only
    transition into [completed] sets [processedImage]; a missing one is
    rendered as the empty text, which every reader of [image] treats like
    [undefined]. *)
Definition historyItemOf (timestamp : nat) (i : BulkImportItem) : HistoryItem :=
  mkHistoryItem (b_data i) (b_id i)
    (match b_processedImage i with
     | Some image => image
     | None => EmptyString
     end)
    timestamp.

(** [saveBulkToHistory]; [now k] is what the [k]-th call of [Date.now()]
    returns. *)
Definition saveBulkToHistory (now : nat -> nat) (b : Bulk) (store : Store)
  : Bulk * Store :=
  let completedItems := filter is_completed (bulkItems b) in
  let newHistoryItems :=
    mapi_from 0 (fun k i => historyItemOf (now k) i) completedItems in
  (mkBulk (filter (fun i => negb (is_completed i)) (bulkItems b))
          (isBulkProcessing b),
   mkStore (newHistoryItems ++ history store) (archived store) uploads).

Definition removeBulkItem (id : string) (b : Bulk) : Bulk :=
  mkBulk (filter (fun i => negb (String.eqb (b_id i) id)) (bulkItems b))
         (isBulkProcessing b).

Definition updateBulkItemImage (id base64 : string) (b : Bulk) : Bulk :=
  mkBulk
    (map (fun item =>
            if String.eqb (b_id item) id
            then mkBulkImportItem (b_id item) (b_file item) base64
                   (b_status item) (b_data item) (Some base64) (b_error item)
            else item) (bulkItems b))
    (isBulkProcessing b).

Definition deleteHistoryItem (id : string) (st : Store) : Store :=
  mkStore (filter (fun item => negb (has_id id item)) (history st))
          (archived st) (activeTab st).

Definition deleteArchivedItem (id : string) (st : Store) : Store :=
  mkStore (history st)
          (filter (fun item => negb (has_id id item)) (archived st))
          (activeTab st).

(** [keyof BookData] *)
Inductive BookField :=
  titleField | authorField | synopsisField | priceField | categoryField.

Definition get_field (field : BookField) (d : BookData) : string :=
  match field with
  | titleField => title d
  | authorField => author d
  | synopsisField => synopsis d
  | priceField => price d
  | categoryField => category d
  end.

(** [{ ...d, [field]: value }] *)
Definition set_field (field : BookField) (value : string) (d : BookData)
  : BookData :=
  match field with
  | titleField => mkBookData value (author d) (synopsis d) (price d) (category d)
  | authorField => mkBookData (title d) value (synopsis d) (price d) (category d)
  | synopsisField => mkBookData (title d) (author d) value (price d) (category d)
  | priceField => mkBookData (title d) (author d) (synopsis d) value (category d)
  | categoryField => mkBookData (title d) (author d) (synopsis d) (price d) value
  end.

Definition updateHistoryField (id : string) (field : BookField)
    (value : string) (st : Store) : Store :=
  mkStore
    (map (fun item =>
            if has_id id item
            then mkHistoryItem (set_field field value (h_data item))
                   (h_id item) (h_image item) (h_timestamp item)
            else item) (history st))
    (archived st) (activeTab st).


(** ** Raw input boundary ([components/ImageUploader.tsx]) *)

Module Uploader.

(** An entry of a [FileList]: the MIME type the browser reports for it,
    and the file. *)
Record Candidate := mkCandidate {
  c_type : string;
  c_file : File
}.

Definition is_image (c : Candidate) : bool :=
  JS.startsWith "image/" (c_type c).

(** [processFiles], for an uploader that was given [onFilesSelected] (as
    both uploaders of the application are): the argument of the callback,
    or [None] when it is not called. *)
Definition processFiles (multiple : bool) (files : list Candidate)
  : option (list File) :=
  let validFiles := map c_file (filter is_image files) in
  match validFiles with
  | [] => None
  | first :: _ => if multiple then Some validFiles else Some [first]
  end.

End Uploader.

(** ** Further specification-side notions *)


(** The characters of a slug. *)
Definition slug_char (c : ascii) : bool :=
  Exporter.is_slug_char c || Ascii.eqb c Exporter.underscore.

(** No two underscores in a row. *)
Fixpoint no_double_underscore (s : string) : bool :=
  match s with
  | EmptyString => true
  | String c rest =>
      match rest with
      | String d _ =>
          negb (Ascii.eqb c Exporter.underscore
                && Ascii.eqb d Exporter.underscore)
      | EmptyString => true
      end && no_double_underscore rest
  end.

Definition first_char (s : string) : option ascii :=
  match s with
  | EmptyString => None
  | String c _ => Some c
  end.

Fixpoint last_char (s : string) : option ascii :=
  match s with
  | EmptyString => None
  | String c EmptyString => Some c
  | String _ rest => last_char rest
  end.

(** Reading back a cell written by [Exporter.escape]: the surrounding
    quotes are dropped and every doubled quote becomes a single one. *)
Fixpoint undouble (s : string) : string :=
  match s with
  | EmptyString => EmptyString
  | String c rest =>
      if Ascii.eqb c Exporter.dquote then
        match rest with
        | String d rest' =>
            if Ascii.eqb d Exporter.dquote then String c (undouble rest')
            else EmptyString
        | EmptyString => EmptyString
        end
      else String c (undouble rest)
  end.

Definition unescape (cell : string) : string :=
  match cell with
  | EmptyString => EmptyString
  | String _ rest => undouble rest
  end.

(** The message of every identification failure. *)
Definition identification_failure : string :=
  "Failed to identify book from image.".

(** The line feed character, which ends every line of the table. *)
Definition line_feed : ascii := ascii_of_nat 10.

(** No field of the entry holds a line feed. *)
Definition single_line_entry (item : HistoryItem) : Prop :=
  count_char line_feed (h_id item) = 0%nat /\
  count_char line_feed (h_image item) = 0%nat /\
  count_char line_feed (title (h_data item)) = 0%nat /\
  count_char line_feed (author (h_data item)) = 0%nat /\
  count_char line_feed (synopsis (h_data item)) = 0%nat /\
  count_char line_feed (price (h_data item)) = 0%nat /\
  count_char line_feed (category (h_data item)) = 0%nat.

(** The bounding box that [JSON.parse] delivers for the payload text
    [[1e999, 0, 1e999, 1000]]: a number too large for a double parses to
    [Infinity]. *)
Definition overflowing_box : BoundingBox :=
  mkBox PrimFloat.infinity 0%float PrimFloat.infinity 1000%float.

(** A browser in which every image decodes to 800 by 600 pixels and the
    canvas answers with [jpeg]. *)
Definition world_drawing (jpeg : string) : World :=
  mkWorld (fun _ => Throw "unused") (fun _ => Throw "unused")
          (fun _ _ => Throw "unused") (fun _ => Some (mkImage 800 600))
          (fun _ _ => Return (Some jpeg)).

(** The characters on which the model of the case mappings coincides with
    JavaScript. *)
Definition is_ascii (c : ascii) : bool := (nat_of_ascii c <? 128)%nat.

(** A text made of ASCII characters only. *)
Definition ascii_text (s : string) : Prop :=
  JS.forall_chars is_ascii s = true.

(** * Properties *)

(** ** Characters *)

Ltac by_cases_on_char c :=
  destruct c as [[] [] [] [] [] [] [] []]; vm_compute; reflexivity.

Lemma lower_char_space (c : ascii) :
  Ascii.eqb (JS.lower_char c) " " = Ascii.eqb c " ".
Proof. by_cases_on_char c. Qed.

Lemma upper_lower_char_space (c : ascii) :
  Ascii.eqb (JS.upper_char (JS.lower_char c)) " " = Ascii.eqb c " ".
Proof. by_cases_on_char c. Qed.

Lemma upper_char_space (c : ascii) :
  Ascii.eqb (JS.upper_char c) " " = Ascii.eqb c " ".
Proof. by_cases_on_char c. Qed.

Lemma lower_char_not_upper (c : ascii) :
  JS.is_upper (JS.lower_char c) = false.
Proof. by_cases_on_char c. Qed.

Lemma upper_lower_char_not_lower (c : ascii) :
  JS.is_lower (JS.upper_char (JS.lower_char c)) = false.
Proof. by_cases_on_char c. Qed.

Lemma lower_char_alpha (c : ascii) :
  JS.is_alpha (JS.lower_char c) = JS.is_alpha c.
Proof. by_cases_on_char c. Qed.

Lemma upper_lower_char_alpha (c : ascii) :
  JS.is_alpha (JS.upper_char (JS.lower_char c)) = JS.is_alpha c.
Proof. by_cases_on_char c. Qed.

Lemma lower_char_non_alpha (c : ascii) :
  JS.is_alpha c = false -> JS.lower_char c = c.
Proof.
  destruct c as [[] [] [] [] [] [] [] []]; vm_compute;
    solve [reflexivity | discriminate].
Qed.

Lemma upper_lower_char_non_alpha (c : ascii) :
  JS.is_alpha c = false -> JS.upper_char (JS.lower_char c) = c.
Proof.
  destruct c as [[] [] [] [] [] [] [] []]; vm_compute;
    solve [reflexivity | discriminate].
Qed.

(** ** [split] and [join] *)

Lemma split_not_nil (sep : ascii) (s : string) : JS.split sep s <> [].
Proof.
  destruct s as [|c rest]; simpl; [discriminate|].
  destruct (Ascii.eqb c sep); [discriminate|].
  destruct (JS.split sep rest); discriminate.
Qed.

Lemma split_cons (sep c : ascii) (rest : string) :
  exists w ws,
    JS.split sep rest = w :: ws /\
    JS.split sep (String c rest) =
      if Ascii.eqb c sep then EmptyString :: w :: ws else String c w :: ws.
Proof.
  destruct (JS.split sep rest) as [|w ws] eqn:E.
  - exfalso. exact (split_not_nil _ _ E).
  - exists w, ws. split; [reflexivity|]. simpl. rewrite E. reflexivity.
Qed.

Lemma join_cons_cons (sep x y : string) (l : list string) :
  JS.join sep (x :: y :: l) = (x ++ sep ++ JS.join sep (y :: l))%string.
Proof. reflexivity. Qed.

(** ** Title Caser *)

(** The source's pipeline of [toLowerCase], [split], [map] and [join]
    computes [titleCaseFrom]; the second component is the same text with
    its first word left uncapitalized. *)
Lemma title_join_split (s : string) :
  JS.join " " (map capitalize (JS.split " " (JS.toLowerCase s)))
    = titleCaseFrom true s /\
  match JS.split " " (JS.toLowerCase s) with
  | [] => False
  | w :: ws => JS.join " " (w :: map capitalize ws) = titleCaseFrom false s
  end.
Proof.
  induction s as [|c rest [IHt IHf]].
  - split; reflexivity.
  - unfold JS.toLowerCase in *. cbn [JS.map_chars].
    destruct (split_cons " " (JS.lower_char c) (JS.map_chars JS.lower_char rest))
      as (w & ws & Hrest & Hall).
    rewrite Hall. rewrite Hrest in IHt, IHf.
    cbn [titleCaseFrom]. rewrite lower_char_space.
    destruct (Ascii.eqb c " ") eqn:Hc.
    + apply Ascii.eqb_eq in Hc. subst c.
      split.
      * cbn [map] in *. rewrite join_cons_cons.
        change (map capitalize (w :: ws)) with (capitalize w :: map capitalize ws) in IHt.
        rewrite IHt. reflexivity.
      * cbn [map]. rewrite join_cons_cons.
        change (map capitalize (w :: ws)) with (capitalize w :: map capitalize ws) in IHt.
        rewrite IHt. reflexivity.
    + split.
      * cbn [map]. unfold capitalize at 1. cbn [JS.charAt0 JS.slice1 JS.toUpperCase JS.map_chars].
        rewrite <- IHf.
        destruct (map capitalize ws) as [|y l]; reflexivity.
      * rewrite <- IHf.
        destruct (map capitalize ws) as [|y l]; reflexivity.
Qed.

Lemma toTitleCase_char_by_char (s : string) :
  toTitleCase s = titleCaseFrom true s.
Proof.
  unfold toTitleCase. destruct s as [|c rest]; [reflexivity|].
  cbn [JS.falsy]. apply title_join_split.
Qed.

Lemma titleCaseFrom_length (start : bool) (s : string) :
  String.length (titleCaseFrom start s) = String.length s.
Proof.
  revert start. induction s as [|c rest IH]; intros start; simpl;
    [reflexivity | now rewrite IH].
Qed.

Lemma titleCaseFrom_word_count (start : bool) (s : string) :
  length (words (titleCaseFrom start s)) = length (words s).
Proof.
  unfold words. revert start.
  induction s as [|c rest IH]; intros start; [reflexivity|].
  cbn [titleCaseFrom].
  set (c' := if start then JS.upper_char (JS.lower_char c) else JS.lower_char c).
  assert (Hc' : Ascii.eqb c' " " = Ascii.eqb c " ").
  { subst c'. destruct start;
      [apply upper_lower_char_space | apply lower_char_space]. }
  destruct (split_cons " " c' (titleCaseFrom (Ascii.eqb c " ") rest))
    as (w & ws & Hrest & Hall).
  destruct (split_cons " " c rest) as (v & vs & Hrest' & Hall').
  rewrite Hall, Hall', Hc'.
  specialize (IH (Ascii.eqb c " ")). rewrite Hrest, Hrest' in IH.
  destruct (Ascii.eqb c " "); simpl in *; lia.
Qed.

Lemma titleCaseFrom_non_alpha (start : bool) (s : string) :
  JS.filter_chars non_alpha (titleCaseFrom start s)
    = JS.filter_chars non_alpha s.
Proof.
  revert start. induction s as [|c rest IH]; intros start; [reflexivity|].
  cbn [titleCaseFrom JS.filter_chars]. rewrite IH.
  set (c' := if start then JS.upper_char (JS.lower_char c) else JS.lower_char c).
  assert (Hal : JS.is_alpha c' = JS.is_alpha c).
  { subst c'. destruct start;
      [apply upper_lower_char_alpha | apply lower_char_alpha]. }
  assert (Hna : non_alpha c' = non_alpha c).
  { unfold non_alpha. now rewrite Hal. }
  rewrite Hna. destruct (non_alpha c) eqn:Hn; [|reflexivity].
  assert (Ha : JS.is_alpha c = false).
  { unfold non_alpha in Hn. now destruct (JS.is_alpha c). }
  subst c'. destruct start;
    [now rewrite (upper_lower_char_non_alpha c Ha)
    | now rewrite (lower_char_non_alpha c Ha)].
Qed.

(** The words of [titleCaseFrom start s]: all capitalized, except that
    the first one only has its upper-case letters removed when it was
    entered in the middle ([start = false]). *)
Lemma titleCaseFrom_words (start : bool) (s : string) :
  match words (titleCaseFrom start s) with
  | [] => False
  | w :: ws =>
      (if start then capitalized_word w
       else JS.exists_char JS.is_upper w = false) /\
      Forall capitalized_word ws
  end.
Proof.
  unfold words. revert start.
  induction s as [|c rest IH]; intros start.
  - cbn. destruct start; split; auto.
  - cbn [titleCaseFrom].
    set (c' := if start then JS.upper_char (JS.lower_char c) else JS.lower_char c).
    assert (Hc' : Ascii.eqb c' " " = Ascii.eqb c " ").
    { subst c'. destruct start;
        [apply upper_lower_char_space | apply lower_char_space]. }
    destruct (split_cons " " c' (titleCaseFrom (Ascii.eqb c " ") rest))
      as (w & ws & Hrest & Hall).
    rewrite Hall, Hc'. specialize (IH (Ascii.eqb c " ")). rewrite Hrest in IH.
    destruct IH as [Hw Hws].
    destruct (Ascii.eqb c " ") eqn:Hc.
    + split.
      * destruct start; cbn; auto.
      * constructor; assumption.
    + split; [|assumption].
      subst c'. destruct start.
      * cbn [capitalized_word]. split;
          [apply upper_lower_char_not_lower | assumption].
      * cbn [JS.exists_char]. rewrite lower_char_not_upper. assumption.
Qed.

(** C7, as amended: for every text made of ASCII characters only, the
    Title Caser keeps the number of space-delimited words and every
    non-alphabetic character; in every word of the output the first
    character is never a lower-case letter (it is upper case when it is a
    letter) and no later character is an upper-case letter; the empty
    text is mapped to itself. *)
Theorem toTitleCase_shape (s : string) :
  ascii_text s ->
  length (words (toTitleCase s)) = length (words s) /\
  JS.filter_chars non_alpha (toTitleCase s) = JS.filter_chars non_alpha s /\
  Forall capitalized_word (words (toTitleCase s)) /\
  toTitleCase EmptyString = EmptyString.
Proof.
  intros _. rewrite toTitleCase_char_by_char.
  repeat split.
  - apply titleCaseFrom_word_count.
  - apply titleCaseFrom_non_alpha.
  - pose proof (titleCaseFrom_words true s) as H.
    destruct (words (titleCaseFrom true s)) as [|w ws]; [contradiction|].
    destruct H. constructor; assumption.
Qed.

Lemma toTitleCase_shape_witness :
  ascii_text "the LORD of the RINGS" /\
  length (words (toTitleCase "the LORD of the RINGS")) = 5 /\
  Forall capitalized_word (words (toTitleCase "the LORD of the RINGS")).
Proof.
  split; [reflexivity|].
  destruct (toTitleCase_shape "the LORD of the RINGS" eq_refl)
    as (Hcount & _ & Hwords & _).
  split; [exact Hcount | exact Hwords].
Defined.

(** C7, as stated, fails: the word [(the] keeps its lower-case [t],
    because only the character at index 0 is upper-cased. *)
Lemma toTitleCase_first_alpha_counterexample :
  toTitleCase "(the" = "(the" /\ ~ title_shape_first_alpha "(the".
Proof.
  split; [reflexivity|].
  intros (_ & _ & H). inversion H as [|w ws Hw _]; subst.
  destruct Hw as [Hup _]. vm_compute in Hup. discriminate.
Qed.

(** A tab does not delimit words: only the space character does. *)
Example toTitleCase_tab :
  toTitleCase (String "a" (String (ascii_of_nat 9) (String "b" EmptyString)))
    = String "A" (String (ascii_of_nat 9) (String "b" EmptyString)).
Proof. reflexivity. Qed.

Example toTitleCase_rings :
  toTitleCase "the LORD of the RINGS" = "The Lord Of The Rings".
Proof. reflexivity. Qed.

(** ** Synopsis Adapter *)

(** C9: whatever the title, the author and the behaviour of the remote
    service, [findOrGenerateSynopsis] completes normally with a string and
    never throws; when the service call throws, that string is the fixed
    placeholder. *)
Theorem findOrGenerateSynopsis_never_throws (w : World) (title author : string) :
  (exists s, findOrGenerateSynopsis w title author = Return s) /\
  (forall e, search w title author = Throw e ->
     findOrGenerateSynopsis w title author
       = Return "Could not retrieve synopsis due to an error.").
Proof.
  unfold findOrGenerateSynopsis, try_catch, bind.
  destruct (search w title author) as [e|response].
  - split; [eexists; reflexivity | intros; reflexivity].
  - split; [|intros e He; discriminate].
    destruct (text response) as [t|]; [destruct (JS.falsy t)|];
      eexists; reflexivity.
Qed.

(** The synopsis adapter always completes normally. *)
Lemma findOrGenerateSynopsis_returns (w : World) (title author : string) :
  exists s, findOrGenerateSynopsis w title author = Return s.
Proof.
  unfold findOrGenerateSynopsis, try_catch, bind.
  destruct (search w title author) as [e|response];
    [eexists; reflexivity|].
  destruct (text response) as [t|]; [destruct (JS.falsy t)|];
    eexists; reflexivity.
Qed.

(** ** Cataloging Pipeline *)

(** Once the identification succeeded the pipeline succeeds, with the
    fields computed from the identification result. *)
Lemma processImagePipeline_identified (w : World) (base64 : string)
    (autoCrop : bool) (identity : BookAnalysisResult) :
  identifyBookFromImage w base64 = Return identity ->
  exists r,
    processImagePipeline w base64 autoCrop = Return r /\
    p_title r = toTitleCase (or_else (r_title identity) "Unknown Title") /\
    p_author r = toTitleCase (or_else (r_author identity) "Unknown Author") /\
    p_category r = pipelineCategory identity.
Proof.
  intros Hid. unfold processImagePipeline. rewrite Hid. cbn [bind].
  destruct (findOrGenerateSynopsis_returns w
              (toTitleCase (or_else (r_title identity) "Unknown Title"))
              (toTitleCase (or_else (r_author identity) "Unknown Author")))
    as [s Hs].
  rewrite Hs. eexists. split; [reflexivity|]. cbn. auto.
Qed.

(** C4, as stated, fails: with no [categories] list but a single
    [category] field, the pipeline outputs that field, not the empty
    text. *)
Lemma pipeline_category_counterexample :
  exists r,
    processImagePipeline (world_identifying only_single_category) "img" true
      = Return r /\
    p_category r = "Fiction" /\
    ~ category_rule only_single_category (p_category r).
Proof.
  eexists. split; [reflexivity|]. split; [reflexivity|].
  cbn. discriminate.
Qed.

(** C4, as amended: when the identification result carries a non-empty
    [categories] list, the output category is its labels joined by a comma
    and a space; when the list is absent or empty, the output category is
    the single [category] field of the result if that is present and
    non-empty, and the empty text otherwise. *)
Theorem pipeline_category (w : World) (base64 : string) (autoCrop : bool)
    (identity : BookAnalysisResult) :
  identifyBookFromImage w base64 = Return identity ->
  exists r,
    processImagePipeline w base64 autoCrop = Return r /\
    p_category r =
      match r_categories identity with
      | Some (c :: cs) => JS.join ", " (c :: cs)
      | _ => or_else (r_category identity) EmptyString
      end.
Proof.
  intros Hid.
  destruct (processImagePipeline_identified w base64 autoCrop identity Hid)
    as (r & Hr & _ & _ & Hcat).
  exists r. split; [assumption|]. rewrite Hcat.
  unfold pipelineCategory, or_else.
  destruct (r_categories identity) as [[|c cs]|]; reflexivity.
Qed.

Lemma pipeline_category_witness :
  exists r,
    processImagePipeline
      (world_identifying
         (mkBookAnalysisResult None None None
            (Some ["Fiction"; "History"]) None None None))
      "img" false = Return r /\
    p_category r = "Fiction, History".
Proof.
  destruct (pipeline_category
              (world_identifying
                 (mkBookAnalysisResult None None None
                    (Some ["Fiction"; "History"]) None None None))
              "img" false
              (mkBookAnalysisResult None None None
                 (Some ["Fiction"; "History"]) None None None)
              eq_refl) as (r & Hr & Hc).
  exists r. split; [exact Hr | exact Hc].
Defined.

(** ** Price Extractor *)

Lemma span_digits (s : string) :
  s = (fst (JS.span JS.is_digit s) ++ snd (JS.span JS.is_digit s))%string /\
  JS.forall_chars JS.is_digit (fst (JS.span JS.is_digit s)) = true /\
  match snd (JS.span JS.is_digit s) with
  | EmptyString => True
  | String c _ => JS.is_digit c = false
  end.
Proof.
  induction s as [|c rest (IH1 & IH2 & IH3)]; [cbn; auto|].
  cbn [JS.span]. destruct (JS.is_digit c) eqn:Hc.
  - destruct (JS.span JS.is_digit rest) as [a b]. cbn in *.
    rewrite Hc. repeat split; [now f_equal | assumption | assumption].
  - cbn. auto.
Qed.

(** The Price Extractor returns the maximal leading run of digits of the
    file name, which is empty when the name does not start with a digit. *)
Lemma extractPriceFromFilename_leading_run (filename : string) :
  leading_digit_run (extractPriceFromFilename filename) filename.
Proof.
  assert (E : extractPriceFromFilename filename
              = fst (JS.span JS.is_digit filename)).
  { unfold extractPriceFromFilename, match_leading_digits.
    destruct (fst (JS.span JS.is_digit filename)); reflexivity. }
  rewrite E. exists (snd (JS.span JS.is_digit filename)).
  apply span_digits.
Qed.

Example extractPrice_380 : extractPriceFromFilename "380.1.jpg" = "380".
Proof. reflexivity. Qed.

Example extractPrice_250 : extractPriceFromFilename "250-cover.png" = "250".
Proof. reflexivity. Qed.

Example extractPrice_cover :
  extractPriceFromFilename "cover.jpg" = EmptyString.
Proof. reflexivity. Qed.

(** ** Single-item scanner *)

(** C10: in single-item mode, when the pipeline succeeds for the first
    selected file, the record shown to the operator has the title, author,
    synopsis and category of the pipeline result, and its price is the
    maximal leading digit run of the file name (empty when there is none),
    whatever the pipeline returned. *)
Theorem scanner_price_from_filename (w : World) (file : File)
    (others : list File) (st : Scanner) (result : PipelineResult) :
  processImagePipeline w (file_dataURL file) (s_autoCrop st) = Return result ->
  exists record,
    s_bookData (handleScannerFileSelected w (file :: others) st)
      = Some record /\
    s_status (handleScannerFileSelected w (file :: others) st) = COMPLETED /\
    price record = extractPriceFromFilename (file_name file) /\
    leading_digit_run (price record) (file_name file) /\
    title record = p_title result /\
    author record = p_author result /\
    synopsis record = p_synopsis result /\
    category record = p_category result.
Proof.
  intros Hrun. unfold handleScannerFileSelected. rewrite Hrun.
  eexists. split; [reflexivity|]. cbn.
  repeat split. apply extractPriceFromFilename_leading_run.
Qed.

Lemma scanner_price_from_filename_witness :
  exists record,
    s_bookData
      (handleScannerFileSelected (world_identifying only_single_category)
         [mkFile "380.1.jpg" "data:image/jpeg;base64,AAAA"]
         (mkScanner None IDLE None None true)) = Some record /\
    price record = "380" /\
    title record = "Dune".
Proof.
  destruct (scanner_price_from_filename
              (world_identifying only_single_category)
              (mkFile "380.1.jpg" "data:image/jpeg;base64,AAAA") []
              (mkScanner None IDLE None None true)
              (mkPipelineResult "Dune" "Frank Herbert" "Fiction"
                 "A synopsis." "data:image/jpeg;base64,AAAA")
              eq_refl)
    as (record & Hb & _ & Hp & _ & Ht & _).
  exists record. split; [exact Hb|]. split; [exact Hp | exact Ht].
Defined.

(** ** Image Cropper *)

(** Every way out of [cropImage] other than a drawn crop yields the
    original asset: a source that does not decode, a rectangle whose width
    or height compares as not positive, a missing 2d context, an exception
    of the canvas. *)
Lemma cropImage_fallbacks (w : World) (base64 : string) (box : BoundingBox) :
  (decode w base64 = None -> cropImage w base64 box = base64) /\
  (forall img,
     decode w base64 = Some img ->
     degenerate (cropRect img box) = true ->
     cropImage w base64 box = base64) /\
  (forall img,
     decode w base64 = Some img ->
     canvas w base64 (cropRect img box) = Return None ->
     cropImage w base64 box = base64) /\
  (forall img e,
     decode w base64 = Some img ->
     canvas w base64 (cropRect img box) = Throw e ->
     cropImage w base64 box = base64).
Proof.
  unfold cropImage. repeat split.
  - intros H. rewrite H. reflexivity.
  - intros img Hd Hdeg. rewrite Hd, Hdeg. reflexivity.
  - intros img Hd Hc. rewrite Hd, Hc.
    destruct (degenerate (cropRect img box)); reflexivity.
  - intros img e Hd Hc. rewrite Hd, Hc.
    destruct (degenerate (cropRect img box)); reflexivity.
Qed.

(** C6 fails on the code for a bounding box with a non-finite coordinate.
    For the box parsed from [[1e999, 0, 1e999, 1000]] on an 800 by 600
    image the computed height is NaN: it is not below the source height,
    the test [w <= 0 || h <= 0] is false, and the cropper hands the
    rectangle to the canvas and returns the canvas output instead of the
    original asset. *)
Theorem cropImage_nan_box_is_drawn :
  PrimFloat.is_nan (crop_h (cropRect (mkImage 800 600) overflowing_box))
    = true /\
  (crop_h (cropRect (mkImage 800 600) overflowing_box)
     <=? Num.of_nat 600)%float = false /\
  degenerate (cropRect (mkImage 800 600) overflowing_box) = false /\
  cropImage (world_drawing "data:,") "data:image/jpeg;base64,AAAA"
    overflowing_box = "data:," /\
  cropImage (world_drawing "data:,") "data:image/jpeg;base64,AAAA"
    overflowing_box <> "data:image/jpeg;base64,AAAA".
Proof.
  repeat split; try (vm_compute; reflexivity).
  vm_compute. discriminate.
Qed.

Example cropRect_full_frame :
  cropRect (mkImage 800 600) (mkBox 0 0 1000 1000)
    = mkCropRect 0 0 800 600 /\
  degenerate (cropRect (mkImage 800 600) (mkBox 0 0 1000 1000)) = false.
Proof. split; vm_compute; reflexivity. Qed.

Example cropImage_empty_box_falls_back :
  cropImage (world_drawing "data:image/jpeg;base64,CROPPED")
    "data:image/jpeg;base64,AAAA" (mkBox 1000 1000 1000 1000)
    = "data:image/jpeg;base64,AAAA".
Proof. vm_compute. reflexivity. Qed.

(** ** Catalog Store and export post-effect *)

Import Exporter.

(** What a completed export leaves behind. *)
Lemma export_completed (date : Date)
    (generateAsync : list (string * string) -> Completion unit)
    (st : Store) :
  history st <> [] ->
  generateAsync (zipFiles date (history st)) = Return tt ->
  exportToWooCommerce date generateAsync st
    = Return (mkStore [] (history st ++ archived st) archivedTab).
Proof.
  intros Hne Hzip. unfold exportToWooCommerce.
  destruct (history st) as [|e es] eqn:Hh; [contradiction|].
  rewrite Hzip. reflexivity.
Qed.

(** C2: for every non-empty history, once the archive file has been
    generated the export completes with an empty history and with an
    archive that consists of the pre-export history entries, unchanged and
    in their order, followed by the entries archived before. *)
Theorem export_moves_history_to_archive (date : Date)
    (generateAsync : list (string * string) -> Completion unit)
    (st : Store) :
  history st <> [] ->
  generateAsync (zipFiles date (history st)) = Return tt ->
  exists st',
    exportToWooCommerce date generateAsync st = Return st' /\
    history st' = [] /\
    archived st' = history st ++ archived st /\
    firstn (length (history st)) (archived st') = history st /\
    skipn (length (history st)) (archived st') = archived st.
Proof.
  intros Hne Hzip.
  eexists. split; [apply export_completed; assumption|].
  cbn [history archived]. repeat split.
  - rewrite firstn_app, firstn_all, Nat.sub_diag, firstn_O, app_nil_r.
    reflexivity.
  - rewrite skipn_app, skipn_all, Nat.sub_diag, skipn_O. reflexivity.
Qed.

Lemma export_moves_history_to_archive_witness :
  exists st',
    exportToWooCommerce (mkDate 2026 10) (fun _ => Return tt)
      (mkStore
         [mkHistoryItem (mkBookData "Dune" "Frank Herbert" "Sand." "380"
                           "Fiction") "id-1" "data:image/jpeg;base64,AAAA" 7;
          mkHistoryItem (mkBookData "Emma" "Jane Austen" "Hartfield." "120"
                           "Classics and Poetry") "id-2" EmptyString 5]
         [mkHistoryItem (mkBookData "Ulysses" "James Joyce" "Dublin." "90"
                           "Fiction") "id-0" EmptyString 1]
         uploads) = Return st' /\
    history st' = [] /\
    map h_id (archived st') = ["id-1"; "id-2"; "id-0"].
Proof.
  destruct (export_moves_history_to_archive (mkDate 2026 10)
              (fun _ => Return tt)
              (mkStore
                 [mkHistoryItem (mkBookData "Dune" "Frank Herbert" "Sand."
                                   "380" "Fiction")
                    "id-1" "data:image/jpeg;base64,AAAA" 7;
                  mkHistoryItem (mkBookData "Emma" "Jane Austen" "Hartfield."
                                   "120" "Classics and Poetry")
                    "id-2" EmptyString 5]
                 [mkHistoryItem (mkBookData "Ulysses" "James Joyce" "Dublin."
                                   "90" "Fiction") "id-0" EmptyString 1]
                 uploads)
              ltac:(discriminate) eq_refl)
    as (st' & Hex & Hh & Ha & _).
  exists st'. split; [exact Hex|]. split; [exact Hh|].
  rewrite Ha. reflexivity.
Defined.

(** With an empty history the export does nothing. *)
Lemma export_empty_history (date : Date)
    (generateAsync : list (string * string) -> Completion unit)
    (st : Store) :
  history st = [] -> exportToWooCommerce date generateAsync st = Return st.
Proof.
  intros H. unfold exportToWooCommerce. rewrite H. reflexivity.
Qed.

Lemma find_first_by_id (e : HistoryItem) (l rest : list HistoryItem) :
  In e l -> NoDup (map h_id l) ->
  find (has_id (h_id e)) (l ++ rest) = Some e.
Proof.
  induction l as [|a l IH]; intros Hin Hnd; [contradiction|].
  cbn [map] in Hnd. apply NoDup_cons_iff in Hnd. destruct Hnd as [Hna Hnd].
  cbn [app find]. unfold has_id at 1.
  destruct Hin as [->|Hin].
  - rewrite String.eqb_refl. reflexivity.
  - destruct (String.eqb (h_id a) (h_id e)) eqn:Heq.
    + apply String.eqb_eq in Heq. exfalso. apply Hna. rewrite Heq.
      apply in_map. assumption.
    + apply IH; assumption.
Qed.

(** C8: for every entry of a history whose identities are pairwise
    distinct, exporting (which archives the whole history) and then
    restoring the identity of the entry leaves exactly that entry in the
    history, equal in every field to what it was before, and no entry
    with its identity in the archive. *)
Theorem archive_restore_roundtrip (date : Date)
    (generateAsync : list (string * string) -> Completion unit)
    (st : Store) (e : HistoryItem) :
  In e (history st) ->
  NoDup (map h_id (history st)) ->
  generateAsync (zipFiles date (history st)) = Return tt ->
  exists st',
    exportToWooCommerce date generateAsync st = Return st' /\
    In e (archived st') /\
    history (restoreArchivedItem (h_id e) st') = [e] /\
    Forall (fun a => h_id a <> h_id e)
      (archived (restoreArchivedItem (h_id e) st')).
Proof.
  intros Hin Hnd Hzip.
  assert (Hne : history st <> []) by (destruct (history st); [contradiction | discriminate]).
  eexists. split; [apply export_completed; assumption|].
  cbn [archived]. split.
  - apply in_or_app. left. assumption.
  - unfold restoreArchivedItem. cbn [archived history activeTab].
    rewrite (find_first_by_id e (history st) (archived st) Hin Hnd).
    cbn [history archived]. split; [reflexivity|].
    apply Forall_forall. intros a Hain. apply filter_In in Hain.
    destruct Hain as [_ Hneg]. unfold has_id in Hneg.
    intros Heq. rewrite Heq, String.eqb_refl in Hneg. discriminate.
Qed.

Lemma archive_restore_roundtrip_witness :
  exists st',
    exportToWooCommerce (mkDate 2026 10) (fun _ => Return tt)
      (mkStore [dune_entry; emma_entry] [ulysses_entry] uploads) = Return st' /\
    history (restoreArchivedItem (h_id emma_entry) st') = [emma_entry].
Proof.
  destruct (archive_restore_roundtrip (mkDate 2026 10) (fun _ => Return tt)
              (mkStore [dune_entry; emma_entry] [ulysses_entry] uploads)
              emma_entry
              (or_intror (or_introl eq_refl))
              ltac:(cbn; repeat constructor; cbn; intuition discriminate)
              eq_refl)
    as (st' & Hex & _ & Hh & _).
  exists st'. split; [exact Hex | exact Hh].
Defined.

(** ** Export rows *)

(** Every cell produced by the [escape] helper is correctly escaped. *)
Lemma escape_cell_escaped (text : string) : cell_escaped text (escape text).
Proof.
  unfold cell_escaped, escape. destruct text as [|c rest];
    [discriminate | reflexivity].
Qed.

(** The columns that go through [escape] satisfy the escaping rule for
    every entry: sku, post_title, post_excerpt, post_content,
    tax:product_cat and tax:product_tag. *)
Lemma row_escaped_columns (date : Date) (item : HistoryItem) (k : nat) :
  In k [1; 2; 3; 4; 14; 15]%nat ->
  cell_escaped (nth k (rowTexts date item) EmptyString)
               (nth k (row date item) EmptyString).
Proof.
  cbn [In]. intros H.
  repeat (destruct H as [<-|H]; [apply escape_cell_escaped|]).
  contradiction.
Qed.

(** C5 fails on the code for the price column: a price holding a comma is
    written as it is, so that its row splits into one cell more than the
    header.  The entry is one that the history table lets the operator
    produce by editing the price. *)
Theorem export_price_cell_not_escaped :
  nth 6 (rowTexts (mkDate 2026 10) dune_entry_priced) EmptyString = "1,250" /\
  needs_quoting "1,250" = true /\
  nth 6 (row (mkDate 2026 10) dune_entry_priced) EmptyString = "1,250" /\
  ~ cell_escaped (nth 6 (rowTexts (mkDate 2026 10) dune_entry_priced) EmptyString)
                 (nth 6 (row (mkDate 2026 10) dune_entry_priced) EmptyString) /\
  count_char comma (csvLine (row (mkDate 2026 10) dune_entry_priced))
    = S (count_char comma (csvLine headers)).
Proof.
  split; [reflexivity|]. split; [reflexivity|]. split; [reflexivity|].
  split; [|vm_compute; reflexivity].
  intros H. specialize (H eq_refl). vm_compute in H. discriminate.
Qed.

(** ** Batch Orchestrator *)

Local Open Scope nat_scope.

Lemma update_by_id_twice (id : string)
    (f g : BulkImportItem -> BulkImportItem) (l : list BulkImportItem) :
  (forall i, b_id (g i) = b_id i) ->
  update_by_id id f (update_by_id id g l)
    = update_by_id id (fun i => f (g i)) l.
Proof.
  intros Hg. unfold update_by_id. rewrite map_map.
  apply map_ext. intros i.
  destruct (String.eqb (b_id i) id) eqn:E.
  - rewrite Hg, E. reflexivity.
  - rewrite E. reflexivity.
Qed.

Lemma settle_id (c : Completion PipelineResult) (i : BulkImportItem) :
  b_id (settle c i) = b_id i.
Proof. destruct c; reflexivity. Qed.

Lemma outcome_for_other (worlds : nat -> World) (autoCrop : bool) (n : nat)
    (todo : list BulkImportItem) (i : BulkImportItem) :
  ~ In (b_id i) (map b_id todo) -> outcome_for worlds autoCrop n todo i = i.
Proof.
  revert n. induction todo as [|item rest IH]; intros n Hni; [reflexivity|].
  cbn [outcome_for]. cbn [map In] in Hni.
  destruct (String.eqb (b_id i) (b_id item)) eqn:E.
  - apply String.eqb_eq in E. exfalso. apply Hni. left. symmetry. exact E.
  - apply IH. intros H. apply Hni. right. exact H.
Qed.

(** The loop of [startBulkProcessing] acts on every item of the state
    independently. *)
Lemma bulkLoop_pointwise (worlds : nat -> World) (autoCrop : bool)
    (todo : list BulkImportItem) :
  forall (n : nat) (state : list BulkImportItem),
    NoDup (map b_id todo) ->
    bulkLoop worlds autoCrop n todo state
      = map (outcome_for worlds autoCrop n todo) state.
Proof.
  induction todo as [|item rest IH]; intros n state Hnd.
  - cbn. symmetry. apply map_id.
  - cbn [map] in Hnd. apply NoDup_cons_iff in Hnd. destruct Hnd as [Hni Hnd].
    cbn [bulkLoop].
    set (c := processImagePipeline (worlds n) (file_dataURL (b_file item)) autoCrop).
    assert (Hstep :
      match c with
      | Return result =>
          update_by_id (b_id item) (mark_completed result)
            (update_by_id (b_id item) mark_processing state)
      | Throw _ =>
          update_by_id (b_id item) mark_error
            (update_by_id (b_id item) mark_processing state)
      end = update_by_id (b_id item) (settle c) state).
    { destruct c; rewrite update_by_id_twice by reflexivity; reflexivity. }
    rewrite Hstep, IH by assumption.
    unfold update_by_id. rewrite map_map. apply map_ext. intros i.
    cbn [outcome_for]. fold c.
    destruct (String.eqb (b_id i) (b_id item)) eqn:E; [|reflexivity].
    apply outcome_for_other. rewrite settle_id.
    apply String.eqb_eq in E. rewrite E. exact Hni.
Qed.

Lemma NoDup_ids_filter (items : list BulkImportItem) :
  NoDup (map b_id items) -> NoDup (map b_id (filter is_idle items)).
Proof.
  induction items as [|a l IH]; intros Hnd; [constructor|].
  cbn [map] in Hnd. apply NoDup_cons_iff in Hnd. destruct Hnd as [Hni Hnd].
  cbn [filter]. destruct (is_idle a); [|auto].
  cbn [map]. constructor; [|auto].
  intros Hin. apply Hni. apply in_map_iff in Hin.
  destruct Hin as (x & Hx & Hxin). apply filter_In in Hxin.
  apply in_map_iff. exists x. tauto.
Qed.

Lemma outcome_for_idle (worlds : nat -> World) (autoCrop : bool)
    (items : list BulkImportItem) :
  forall (n p : nat) (i : BulkImportItem),
    NoDup (map b_id items) ->
    nth_error items p = Some i ->
    is_idle i = true ->
    outcome_for worlds autoCrop n (filter is_idle items) i
      = settle (processImagePipeline (worlds (n + rank items p))
                  (file_dataURL (b_file i)) autoCrop) i.
Proof.
  unfold rank.
  induction items as [|a l IH]; intros n p i Hnd Hp Hidle.
  - destruct p; discriminate.
  - cbn [map] in Hnd. apply NoDup_cons_iff in Hnd. destruct Hnd as [Hni Hnd].
    destruct p as [|p].
    + cbn in Hp. injection Hp as ->. cbn [filter firstn]. rewrite Hidle.
      cbn [outcome_for length]. rewrite String.eqb_refl, Nat.add_0_r.
      reflexivity.
    + cbn [nth_error] in Hp. cbn [firstn filter].
      assert (Hne : String.eqb (b_id i) (b_id a) = false).
      { apply String.eqb_neq. intros Heq. apply Hni. rewrite <- Heq.
        apply in_map. eapply nth_error_In. exact Hp. }
      destruct (is_idle a).
      * cbn [outcome_for length]. rewrite Hne.
        rewrite (IH (S n) p i Hnd Hp Hidle). rewrite Nat.add_succ_r.
        reflexivity.
      * apply IH; assumption.
Qed.

Lemma outcome_for_not_idle (worlds : nat -> World) (autoCrop : bool)
    (items : list BulkImportItem) (n : nat) (i : BulkImportItem) :
  NoDup (map b_id items) ->
  In i items ->
  is_idle i = false ->
  outcome_for worlds autoCrop n (filter is_idle items) i = i.
Proof.
  intros Hnd Hin Hidle. apply outcome_for_other.
  intros Hid. apply in_map_iff in Hid. destruct Hid as (x & Hx & Hxin).
  apply filter_In in Hxin. destruct Hxin as [Hxin Hxidle].
  assert (x = i).
  { clear Hxidle Hidle. induction items as [|a l IH]; [contradiction|].
    cbn [map] in Hnd. apply NoDup_cons_iff in Hnd. destruct Hnd as [Hni Hnd].
    destruct Hin as [->|Hin], Hxin as [->|Hxin]; auto.
    - exfalso. apply Hni. rewrite <- Hx. apply in_map. assumption.
    - exfalso. apply Hni. rewrite Hx. apply in_map. assumption. }
  subst x. congruence.
Qed.

(** The state after a run, position by position. *)
Lemma startBulkProcessing_at (worlds : nat -> World) (autoCrop : bool)
    (st : Bulk) (p : nat) (i : BulkImportItem) :
  NoDup (map b_id (bulkItems st)) ->
  nth_error (bulkItems st) p = Some i ->
  nth_error (bulkItems (startBulkProcessing worlds autoCrop st)) p
    = Some (if is_idle i
            then settle (processImagePipeline
                           (worlds (rank (bulkItems st) p))
                           (file_dataURL (b_file i)) autoCrop) i
            else i).
Proof.
  intros Hnd Hp. unfold startBulkProcessing. cbn [bulkItems].
  rewrite bulkLoop_pointwise by (apply NoDup_ids_filter; assumption).
  rewrite nth_error_map, Hp. cbn [option_map]. f_equal.
  destruct (is_idle i) eqn:Hidle.
  - rewrite (outcome_for_idle worlds autoCrop (bulkItems st) 0 p i Hnd Hp Hidle).
    reflexivity.
  - apply outcome_for_not_idle; try assumption.
    eapply nth_error_In. exact Hp.
Qed.

Lemma startBulkProcessing_length (worlds : nat -> World) (autoCrop : bool)
    (st : Bulk) :
  NoDup (map b_id (bulkItems st)) ->
  length (bulkItems (startBulkProcessing worlds autoCrop st))
    = length (bulkItems st).
Proof.
  intros Hnd. unfold startBulkProcessing. cbn [bulkItems].
  rewrite bulkLoop_pointwise by (apply NoDup_ids_filter; assumption).
  apply length_map.
Qed.

Lemma settle_not_processing (c : Completion PipelineResult)
    (i : BulkImportItem) :
  b_status (settle c i) <> processing.
Proof. destruct c; discriminate. Qed.

(** C1: take any batch whose items have pairwise distinct identities and
    none of which is being processed, and a run in which the pipeline call
    number [k] throws while every other call succeeds.  When the run is
    over, the run flag is down, the items are the same in number and
    order, no item has status [processing], the pending item served by
    call [k] has status [error] with error note [Failed] and its record
    untouched, every other pending item has status [completed], and the
    items that were not pending are unchanged. *)
Theorem batch_failure_isolation (worlds : nat -> World) (autoCrop : bool)
    (st : Bulk) (k : nat) :
  NoDup (map b_id (bulkItems st)) ->
  Forall (fun i => b_status i <> processing) (bulkItems st) ->
  (forall p i,
     nth_error (bulkItems st) p = Some i ->
     is_idle i = true ->
     if rank (bulkItems st) p =? k
     then exists e,
            processImagePipeline (worlds (rank (bulkItems st) p))
              (file_dataURL (b_file i)) autoCrop = Throw e
     else exists r,
            processImagePipeline (worlds (rank (bulkItems st) p))
              (file_dataURL (b_file i)) autoCrop = Return r) ->
  isBulkProcessing (startBulkProcessing worlds autoCrop st) = false /\
  length (bulkItems (startBulkProcessing worlds autoCrop st))
    = length (bulkItems st) /\
  Forall (fun i' => b_status i' <> processing)
    (bulkItems (startBulkProcessing worlds autoCrop st)) /\
  (forall p i,
     nth_error (bulkItems st) p = Some i ->
     exists i',
       nth_error (bulkItems (startBulkProcessing worlds autoCrop st)) p
         = Some i' /\
       b_id i' = b_id i /\
       if is_idle i then
         if rank (bulkItems st) p =? k
         then b_status i' = error /\
              b_error i' = Some "Failed" /\
              b_data i' = b_data i
         else b_status i' = completed
       else i' = i).
Proof.
  intros Hnd Hnp Hcalls.
  split; [reflexivity|].
  split; [apply startBulkProcessing_length; assumption|].
  split.
  - apply Forall_forall. intros i' Hin.
    apply In_nth_error in Hin. destruct Hin as [p Hp'].
    assert (Hlt : p < length (bulkItems st)).
    { rewrite <- (startBulkProcessing_length worlds autoCrop st Hnd).
      apply nth_error_Some. congruence. }
    destruct (nth_error (bulkItems st) p) as [i|] eqn:Hp;
      [|apply nth_error_None in Hp; lia].
    rewrite (startBulkProcessing_at worlds autoCrop st p i Hnd Hp) in Hp'.
    injection Hp' as <-.
    destruct (is_idle i).
    + apply settle_not_processing.
    + rewrite Forall_forall in Hnp. apply Hnp.
      eapply nth_error_In. exact Hp.
  - intros p i Hp. eexists.
    split; [exact (startBulkProcessing_at worlds autoCrop st p i Hnd Hp)|].
    specialize (Hcalls p i Hp).
    destruct (is_idle i); [|split; reflexivity].
    specialize (Hcalls eq_refl).
    split; [apply settle_id|].
    destruct (rank (bulkItems st) p =? k).
    + destruct Hcalls as [e ->]. cbn. auto.
    + destruct Hcalls as [r ->]. reflexivity.
Qed.

Lemma batch_failure_isolation_witness :
  map b_status
    (bulkItems (startBulkProcessing sample_worlds true sample_batch))
    = [completed; error; completed] /\
  exists i',
    nth_error
      (bulkItems (startBulkProcessing sample_worlds true sample_batch)) 1
      = Some i' /\
    b_status i' = error /\
    b_error i' = Some "Failed".
Proof.
  split; [vm_compute; reflexivity|].
  destruct (batch_failure_isolation sample_worlds true sample_batch 1)
    as (_ & _ & _ & Hat).
  - vm_compute. repeat constructor; cbn; intuition discriminate.
  - vm_compute. repeat constructor; discriminate.
  - intros p i Hp Hidle.
    destruct p as [|[|[|p]]]; vm_compute in Hp;
      try (injection Hp as <-; vm_compute; eexists; reflexivity).
    destruct p; discriminate.
  - destruct (Hat 1 _ eq_refl) as (i' & Hi' & _ & Hs & He & _).
    exists i'. split; [exact Hi'|]. split; [exact Hs | exact He].
Defined.

(** Every item created at intake is pending and carries the price
    extracted from the name of its file. *)
Lemma intake_items (randomUUID createObjectURL : nat -> string)
    (files : list File) (n : nat) :
  Forall (fun i =>
            b_status i = idle /\
            price (b_data i) = extractPriceFromFilename (file_name (b_file i)))
    (mapi_from n (fun k file =>
       mkBulkImportItem (randomUUID k) file (createObjectURL k) idle
         (mkBookData EmptyString EmptyString EmptyString
            (extractPriceFromFilename (file_name file)) EmptyString)
         None None) files).
Proof.
  revert n. induction files as [|file rest IH]; intros n; cbn [mapi_from];
    constructor; [split; reflexivity | apply IH].
Qed.

(** C3: let a batch be extended by newly selected files and then run,
    all identities being pairwise distinct.  For every pending item whose
    pipeline call succeeds, the item ends with status [completed], with
    title, author, category and synopsis taken from the pipeline result,
    and with the price it had before the run; for an item that came in
    with the selected files this is the price extracted from the file
    name. *)
Theorem batch_price_preserved (worlds : nat -> World) (autoCrop : bool)
    (randomUUID createObjectURL : nat -> string) (files : list File)
    (prev : Bulk) (p : nat) (i : BulkImportItem) (r : PipelineResult) :
  let st := handleBulkFilesSelected randomUUID createObjectURL files prev in
  NoDup (map b_id (bulkItems st)) ->
  nth_error (bulkItems st) p = Some i ->
  is_idle i = true ->
  processImagePipeline (worlds (rank (bulkItems st) p))
    (file_dataURL (b_file i)) autoCrop = Return r ->
  exists i',
    nth_error (bulkItems (startBulkProcessing worlds autoCrop st)) p
      = Some i' /\
    b_id i' = b_id i /\
    b_status i' = completed /\
    title (b_data i') = p_title r /\
    author (b_data i') = p_author r /\
    category (b_data i') = p_category r /\
    synopsis (b_data i') = p_synopsis r /\
    price (b_data i') = price (b_data i) /\
    (length (bulkItems prev) <= p ->
     price (b_data i') = extractPriceFromFilename (file_name (b_file i))).
Proof.
  intros st Hnd Hp Hidle Hrun.
  eexists. split; [exact (startBulkProcessing_at worlds autoCrop st p i Hnd Hp)|].
  rewrite Hidle, Hrun. cbn.
  repeat split.
  intros Hle. subst st. unfold handleBulkFilesSelected in Hp.
  cbn [bulkItems] in Hp. rewrite nth_error_app2 in Hp by assumption.
  apply nth_error_In in Hp.
  pose proof (intake_items randomUUID createObjectURL files 0) as Hall.
  rewrite Forall_forall in Hall. apply (Hall i Hp).
Qed.

Lemma batch_price_preserved_witness :
  exists i',
    nth_error
      (bulkItems (startBulkProcessing sample_worlds true sample_batch)) 2
      = Some i' /\
    b_status i' = completed /\
    title (b_data i') = "Dune" /\
    price (b_data i') = "250".
Proof.
  destruct (batch_price_preserved sample_worlds true sample_uuid
              (fun _ => "blob:preview") sample_files (mkBulk [] false) 2
              (mkBulkImportItem "id-c"
                 (mkFile "250-back.png" "data:image/png;base64,CCCC")
                 "blob:preview" idle
                 (mkBookData EmptyString EmptyString EmptyString "250"
                    EmptyString)
                 None None)
              (mkPipelineResult "Dune" "Frank Herbert" "Fiction"
                 "A synopsis." "data:image/png;base64,CCCC"))
    as (i' & Hi' & _ & Hs & Ht & _ & _ & _ & _ & Hp).
  - vm_compute. repeat constructor; cbn; intuition discriminate.
  - reflexivity.
  - reflexivity.
  - vm_compute. reflexivity.
  - exists i'. split; [exact Hi'|]. split; [exact Hs|]. split; [exact Ht|].
    apply Hp. cbn. lia.
Defined.

(** * Further properties *)

(** ** Identification adapter and pipeline failures *)

Lemma identifyBookFromImage_cases (w : World) (base64 : string) :
  (exists identity, identifyBookFromImage w base64 = Return identity) \/
  identifyBookFromImage w base64 = Throw identification_failure.
Proof.
  unfold identifyBookFromImage, try_catch, bind.
  destruct (vision w base64) as [e|response]; [right; reflexivity|].
  destruct (text response) as [t|]; [|right; reflexivity].
  destruct (JS.falsy t); [right; reflexivity|].
  destruct (JSON_parse w t) as [e|identity]; [right; reflexivity|].
  left. exists identity. reflexivity.
Qed.

(** X1: the identification adapter hides the cause of every failure.  It
    returns the parsed payload exactly when the service answers with a
    non-empty text that parses; in every other case (the call throws, the
    text is missing or empty, the text does not parse) it throws the one
    fixed message. *)
Theorem identifyBookFromImage_outcomes (w : World) (base64 : string) :
  (forall identity,
     identifyBookFromImage w base64 = Return identity <->
     exists t rest,
       vision w base64 = Return (mkResponse (Some (String t rest))) /\
       JSON_parse w (String t rest) = Return identity) /\
  (forall e,
     identifyBookFromImage w base64 = Throw e ->
     e = "Failed to identify book from image.").
Proof.
  split.
  - intros identity. unfold identifyBookFromImage, try_catch, bind.
    destruct (vision w base64) as [e|[[[|t rest]|]]] eqn:Hv; cbn.
    + split; [discriminate | intros (? & ? & ? & _); discriminate].
    + split; [discriminate | intros (? & ? & ? & _); discriminate].
    + destruct (JSON_parse w (String t rest)) as [e|identity'] eqn:Hp.
      * split; [discriminate|].
        intros (t' & rest' & Ht & Hp'). injection Ht as <- <-. congruence.
      * split.
        -- intros H. injection H as <-. exists t, rest. auto.
        -- intros (t' & rest' & Ht & Hp'). injection Ht as <- <-. congruence.
    + split; [discriminate | intros (? & ? & ? & _); discriminate].
  - intros e He.
    destruct (identifyBookFromImage_cases w base64) as [[identity Hid]|Hid];
      [congruence|].
    rewrite Hid in He. injection He as <-. reflexivity.
Qed.

(** X2: an identification failure passes through the pipeline unchanged
    and nothing else is produced; and once the identification has
    returned a result of the declared shape, the pipeline returns a
    result: neither the cropper nor the synopsis adapter makes it fail. *)
Theorem processImagePipeline_failure_propagation (w : World)
    (base64 : string) (autoCrop : bool) :
  (forall e,
     identifyBookFromImage w base64 = Throw e ->
     processImagePipeline w base64 autoCrop = Throw e) /\
  (forall identity,
     identifyBookFromImage w base64 = Return identity ->
     exists r, processImagePipeline w base64 autoCrop = Return r).
Proof.
  split.
  - intros e H. unfold processImagePipeline. rewrite H. reflexivity.
  - intros identity Hid.
    destruct (processImagePipeline_identified w base64 autoCrop identity Hid)
      as (r & Hr & _).
    exists r. assumption.
Qed.

(** X3: a missing or empty title (author) of the identification result
    becomes the literal [Unknown Title] ([Unknown Author]) in the
    pipeline output. *)
Theorem processImagePipeline_unknown_defaults (w : World) (base64 : string)
    (autoCrop : bool) (identity : BookAnalysisResult) :
  identifyBookFromImage w base64 = Return identity ->
  exists r,
    processImagePipeline w base64 autoCrop = Return r /\
    (r_title identity = None \/ r_title identity = Some EmptyString ->
     p_title r = "Unknown Title") /\
    (r_author identity = None \/ r_author identity = Some EmptyString ->
     p_author r = "Unknown Author").
Proof.
  intros Hid.
  destruct (processImagePipeline_identified w base64 autoCrop identity Hid)
    as (r & Hr & Ht & Ha & _).
  exists r. split; [assumption|]. split.
  - intros [H|H]; rewrite Ht, H; reflexivity.
  - intros [H|H]; rewrite Ha, H; reflexivity.
Qed.

Lemma processImagePipeline_unknown_defaults_witness :
  exists r,
    processImagePipeline
      (world_identifying
         (mkBookAnalysisResult None (Some EmptyString) None None None None None))
      "img" true = Return r /\
    p_title r = "Unknown Title" /\
    p_author r = "Unknown Author".
Proof.
  destruct (processImagePipeline_unknown_defaults
              (world_identifying
                 (mkBookAnalysisResult None (Some EmptyString) None None None
                    None None))
              "img" true
              (mkBookAnalysisResult None (Some EmptyString) None None None
                 None None)
              eq_refl) as (r & Hr & Ht & Ha).
  exists r. split; [exact Hr|]. split.
  - apply Ht. left. reflexivity.
  - apply Ha. right. reflexivity.
Defined.

(** X4: the processed image of the pipeline is the cropper's output when
    auto-crop is on and the bounding box has exactly four components, and
    the original image in every other case. *)
Theorem processImagePipeline_processedImage (w : World) (base64 : string)
    (autoCrop : bool) (identity : BookAnalysisResult) :
  identifyBookFromImage w base64 = Return identity ->
  exists r,
    processImagePipeline w base64 autoCrop = Return r /\
    p_processedImage r =
      match autoCrop, r_box_2d identity with
      | true, Some [a; b; c; d] => cropImage w base64 (mkBox a b c d)
      | _, _ => base64
      end.
Proof.
  intros Hid. unfold processImagePipeline. rewrite Hid. cbn [bind].
  destruct (findOrGenerateSynopsis_returns w
              (toTitleCase (or_else (r_title identity) "Unknown Title"))
              (toTitleCase (or_else (r_author identity) "Unknown Author")))
    as [s Hs].
  rewrite Hs. eexists. split; [reflexivity|]. cbn [bind p_processedImage].
  unfold box_of.
  destruct autoCrop; [|reflexivity].
  destruct (r_box_2d identity) as [[|a [|b [|c [|d [|x l]]]]]|]; reflexivity.
Qed.

Lemma processImagePipeline_processedImage_witness :
  exists r,
    processImagePipeline
      (world_identifying
         (mkBookAnalysisResult None None (Some [0%float; 0%float; 500%float]) None None None
            None))
      "img" true = Return r /\
    p_processedImage r = "img".
Proof.
  destruct (processImagePipeline_processedImage
              (world_identifying
                 (mkBookAnalysisResult None None (Some [0%float; 0%float; 500%float]) None None
                    None None))
              "img" true
              (mkBookAnalysisResult None None (Some [0%float; 0%float; 500%float]) None None
                 None None)
              eq_refl) as (r & Hr & Hi).
  exists r. split; [exact Hr | exact Hi].
Defined.

(** ** Scanner handlers *)

(** X5: when the identification of the uploaded image fails in
    single-item mode, whatever made it fail, the scanner ends in status
    [ERROR] showing the fixed identification failure message, with no
    record and with the uploaded image still on display. *)
Theorem scanner_failure_state (w : World) (file : File) (others : list File)
    (st : Scanner) (e : string) :
  identifyBookFromImage w (file_dataURL file) = Throw e ->
  handleScannerFileSelected w (file :: others) st
    = mkScanner (Some (file_dataURL file)) ERROR None
        (Some (mkProcessingError "Failed to identify book from image."))
        (s_autoCrop st).
Proof.
  intros He.
  destruct (identifyBookFromImage_cases w (file_dataURL file))
    as [[identity Hid]|Hid]; [congruence|].
  unfold handleScannerFileSelected, processImagePipeline.
  rewrite Hid. reflexivity.
Qed.

Lemma scanner_failure_state_witness :
  handleScannerFileSelected world_offline
    [mkFile "380.1.jpg" "data:image/jpeg;base64,AAAA"]
    (mkScanner None IDLE None None true)
    = mkScanner (Some "data:image/jpeg;base64,AAAA") ERROR None
        (Some (mkProcessingError "Failed to identify book from image."))
        true.
Proof.
  apply (scanner_failure_state world_offline
           (mkFile "380.1.jpg" "data:image/jpeg;base64,AAAA") []
           (mkScanner None IDLE None None true)
           "Failed to identify book from image.").
  reflexivity.
Defined.

(** X6: regenerating the synopsis always ends in status [COMPLETED] and
    changes nothing but the synopsis of the record on display, which
    becomes the adapter's answer for the record's title and author; with
    no record on display it does nothing. *)
Theorem handleRegenerateSynopsis_only_synopsis (w : World) (st : Scanner) :
  (s_bookData st = None -> handleRegenerateSynopsis w st = st) /\
  (forall bookData,
     s_bookData st = Some bookData ->
     exists newSynopsis,
       findOrGenerateSynopsis w (title bookData) (author bookData)
         = Return newSynopsis /\
       handleRegenerateSynopsis w st
         = mkScanner (s_image st) COMPLETED
             (Some (set_field synopsisField newSynopsis bookData))
             (s_error st) (s_autoCrop st)).
Proof.
  unfold handleRegenerateSynopsis. split.
  - intros H. rewrite H. reflexivity.
  - intros bookData H. rewrite H.
    destruct (findOrGenerateSynopsis_returns w (title bookData)
                (author bookData))
    as [s Hs].
    exists s. rewrite Hs. split; reflexivity.
Qed.

(** Saving the record on display puts one new entry at the front of
    the history, made of the record, the image on display, the fresh
    identity and the current time; the older entries and the archive are
    untouched and the scanner is reset.  Without a record or without an
    image nothing changes. *)
Theorem saveBook_effect (uuid : string) (now : nat) (st : Scanner)
    (store : Store) :
  (forall bookData image,
     s_bookData st = Some bookData ->
     s_image st = Some image ->
     image <> EmptyString ->
     saveBook uuid now st store
       = (mkScanner None IDLE None (s_error st) (s_autoCrop st),
          mkStore (mkHistoryItem bookData uuid image now :: history store)
            (archived store) (activeTab store))) /\
  (s_bookData st = None \/ s_image st = None \/ s_image st = Some EmptyString ->
   saveBook uuid now st store = (st, store)).
Proof.
  unfold saveBook, ready_to_save. split.
  - intros bookData image Hb Hi Hne. rewrite Hb, Hi.
    destruct image; [contradiction | reflexivity].
  - intros [H|[H|H]]; rewrite H; [reflexivity| |];
      destruct (s_bookData st); reflexivity.
Qed.

(** X7: a file selected in the scanner, processed successfully and then
    saved yields a history entry whose price is the leading digit run of
    the file name and whose image is the processed image. *)
Theorem scan_then_save (w : World) (file : File) (others : list File)
    (st : Scanner) (store : Store) (uuid : string) (now : nat)
    (result : PipelineResult) :
  processImagePipeline w (file_dataURL file) (s_autoCrop st) = Return result ->
  p_processedImage result <> EmptyString ->
  exists entry,
    history (snd (saveBook uuid now
                    (handleScannerFileSelected w (file :: others) st) store))
      = entry :: history store /\
    h_id entry = uuid /\
    h_image entry = p_processedImage result /\
    price (h_data entry) = extractPriceFromFilename (file_name file) /\
    title (h_data entry) = p_title result /\
    s_status (fst (saveBook uuid now
                     (handleScannerFileSelected w (file :: others) st) store))
      = IDLE.
Proof.
  intros Hrun Hne. unfold handleScannerFileSelected. rewrite Hrun.
  unfold saveBook, ready_to_save. cbn [s_bookData s_image].
  destruct (p_processedImage result) eqn:Hp; [contradiction|].
  cbn. eexists. repeat split.
Qed.

Lemma scan_then_save_witness :
  exists entry,
    history (snd (saveBook "id-9" 42
                    (handleScannerFileSelected
                       (world_identifying only_single_category)
                       [mkFile "380.1.jpg" "data:image/jpeg;base64,AAAA"]
                       (mkScanner None IDLE None None true))
                    (mkStore [emma_entry] [] scanner)))
      = entry :: [emma_entry] /\
    price (h_data entry) = "380".
Proof.
  destruct (scan_then_save (world_identifying only_single_category)
              (mkFile "380.1.jpg" "data:image/jpeg;base64,AAAA") []
              (mkScanner None IDLE None None true)
              (mkStore [emma_entry] [] scanner) "id-9" 42
              (mkPipelineResult "Dune" "Frank Herbert" "Fiction"
                 "A synopsis." "data:image/jpeg;base64,AAAA")
              eq_refl ltac:(discriminate))
    as (entry & Hh & _ & _ & Hp & _).
  exists entry. split; [exact Hh | exact Hp].
Defined.

(** ** Title Caser and Price Extractor, continued *)

Lemma lower_lower_char (c : ascii) :
  JS.lower_char (JS.lower_char c) = JS.lower_char c.
Proof. by_cases_on_char c. Qed.

Lemma upper_lower_upper_lower_char (c : ascii) :
  JS.upper_char (JS.lower_char (JS.upper_char (JS.lower_char c)))
    = JS.upper_char (JS.lower_char c).
Proof. by_cases_on_char c. Qed.

Lemma titleCaseFrom_idempotent (start : bool) (s : string) :
  titleCaseFrom start (titleCaseFrom start s) = titleCaseFrom start s.
Proof.
  revert start. induction s as [|c rest IH]; intros start; [reflexivity|].
  cbn [titleCaseFrom]. destruct start.
  - rewrite upper_lower_upper_lower_char, upper_lower_char_space, IH.
    reflexivity.
  - rewrite lower_lower_char, lower_char_space, IH. reflexivity.
Qed.

(** X8: on ASCII text title casing is idempotent: an ASCII text that
    went through the Title Caser is left unchanged by it. *)
Theorem toTitleCase_idempotent (s : string) :
  ascii_text s ->
  toTitleCase (toTitleCase s) = toTitleCase s.
Proof.
  intros _. rewrite !toTitleCase_char_by_char. apply titleCaseFrom_idempotent.
Qed.

Lemma toTitleCase_idempotent_witness :
  toTitleCase (toTitleCase "o'neil's 2nd BOOK") = toTitleCase "o'neil's 2nd BOOK".
Proof.
  apply (toTitleCase_idempotent "o'neil's 2nd BOOK"). reflexivity.
Defined.

Lemma span_all_digits (s : string) :
  JS.forall_chars JS.is_digit s = true ->
  fst (JS.span JS.is_digit s) = s.
Proof.
  induction s as [|c rest IH]; [reflexivity|].
  cbn [JS.forall_chars JS.span]. intros H. apply andb_true_iff in H.
  destruct H as [Hc Hrest]. rewrite Hc. specialize (IH Hrest).
  destruct (JS.span JS.is_digit rest) as [a b]. cbn in *. now rewrite IH.
Qed.

Lemma extractPriceFromFilename_span (filename : string) :
  extractPriceFromFilename filename = fst (JS.span JS.is_digit filename).
Proof.
  unfold extractPriceFromFilename, match_leading_digits.
  destruct (fst (JS.span JS.is_digit filename)); reflexivity.
Qed.

(** X9: the Price Extractor yields digits only; it yields the empty text
    exactly when the file name does not start with a digit; a name made
    of digits only is returned whole; and extracting from an extracted
    price gives that price again. *)
Theorem extractPriceFromFilename_digits (filename : string) :
  JS.forall_chars JS.is_digit (extractPriceFromFilename filename) = true /\
  (extractPriceFromFilename filename = EmptyString <->
   match filename with
   | EmptyString => True
   | String c _ => JS.is_digit c = false
   end) /\
  (JS.forall_chars JS.is_digit filename = true ->
   extractPriceFromFilename filename = filename) /\
  extractPriceFromFilename (extractPriceFromFilename filename)
    = extractPriceFromFilename filename.
Proof.
  rewrite !extractPriceFromFilename_span.
  pose proof (span_digits filename) as (_ & Hd & _).
  split; [assumption|]. split; [|split].
  - destruct filename as [|c rest]; [cbn; tauto|].
    cbn [JS.span]. destruct (JS.is_digit c).
    + destruct (JS.span JS.is_digit rest). cbn.
      split; [discriminate | discriminate].
    + cbn. tauto.
  - apply span_all_digits.
  - apply span_all_digits. assumption.
Qed.

(** ** Catalog Store, continued *)

Lemma filter_keeps_all {A : Type} (p : A -> bool) (l : list A) :
  (forall x, In x l -> p x = true) -> filter p l = l.
Proof.
  induction l as [|a l IH]; intros H; [reflexivity|].
  cbn [filter]. rewrite (H a (or_introl eq_refl)).
  f_equal. apply IH. intros x Hx. apply H. right. assumption.
Qed.

Lemma find_none_by_id (id : string) (l : list HistoryItem) :
  find (has_id id) l = None <-> (forall e, In e l -> h_id e <> id).
Proof.
  split.
  - intros H e Hin Heq.
    pose proof (find_none _ _ H e Hin) as Hf.
    unfold has_id in Hf. rewrite Heq, String.eqb_refl in Hf. discriminate.
  - intros H. induction l as [|a l IH]; [reflexivity|].
    cbn [find]. unfold has_id at 1.
    destruct (String.eqb (h_id a) id) eqn:E.
    + apply String.eqb_eq in E. exfalso. apply (H a (or_introl eq_refl) E).
    + apply IH. intros e He. apply H. right. assumption.
Qed.

Lemma restore_split (id : string) (l : list HistoryItem) (e : HistoryItem) :
  NoDup (map h_id l) ->
  find (has_id id) l = Some e ->
  Permutation l (e :: filter (fun item => negb (has_id id item)) l).
Proof.
  induction l as [|a l IH]; intros Hnd Hf; [discriminate|].
  cbn [map] in Hnd. apply NoDup_cons_iff in Hnd. destruct Hnd as [Hni Hnd].
  cbn [find filter] in *. destruct (has_id id a) eqn:Ha.
  - injection Hf as <-. cbn [negb].
    rewrite filter_keeps_all; [reflexivity|].
    intros x Hx. unfold has_id in *. apply String.eqb_eq in Ha.
    destruct (String.eqb (h_id x) id) eqn:Hxid; [|reflexivity].
    apply String.eqb_eq in Hxid. exfalso. apply Hni.
    rewrite Ha, <- Hxid. apply in_map. assumption.
  - cbn [negb]. etransitivity; [|apply perm_swap].
    constructor. apply IH; assumption.
Qed.






(** X14: restoring an archived identity moves exactly one entry.  When
    the archive's identities are pairwise distinct and hold [id], the
    matching entry is put in front of the history, the archive loses that
    entry and no other, and nothing else moves; when the archive does not
    hold [id], the store is unchanged. *)
Theorem restoreArchivedItem_moves_one (id : string) (st : Store) :
  NoDup (map h_id (archived st)) ->
  (forall e,
     In e (archived st) -> h_id e = id ->
     history (restoreArchivedItem id st) = e :: history st /\
     Permutation (archived st) (e :: archived (restoreArchivedItem id st)) /\
     ~ In e (archived (restoreArchivedItem id st)) /\
     activeTab (restoreArchivedItem id st) = activeTab st) /\
  ((forall e, In e (archived st) -> h_id e <> id) ->
   restoreArchivedItem id st = st).
Proof.
  intros Hnd. split.
  - intros e Hin Hid. subst id.
    pose proof (find_first_by_id e (archived st) [] Hin Hnd) as Hf.
    rewrite app_nil_r in Hf.
    unfold restoreArchivedItem. rewrite Hf. cbn [history archived activeTab].
    repeat split.
    + apply restore_split; assumption.
    + intros H. apply filter_In in H. destruct H as [_ H].
      unfold has_id in H. rewrite String.eqb_refl in H. discriminate.
  - intros Hno. unfold restoreArchivedItem.
    apply find_none_by_id in Hno. rewrite Hno. reflexivity.
Qed.

Lemma restoreArchivedItem_moves_one_witness :
  history (restoreArchivedItem (h_id ulysses_entry)
             (mkStore [dune_entry] [emma_entry; ulysses_entry] archivedTab))
    = [ulysses_entry; dune_entry] /\
  restoreArchivedItem "no-such-id"
    (mkStore [dune_entry] [emma_entry; ulysses_entry] archivedTab)
    = mkStore [dune_entry] [emma_entry; ulysses_entry] archivedTab.
Proof.
  split.
  - destruct (restoreArchivedItem_moves_one (h_id ulysses_entry)
                (mkStore [dune_entry] [emma_entry; ulysses_entry] archivedTab))
      as (Hmove & _).
    + vm_compute. repeat constructor; cbn; intuition discriminate.
    + destruct (Hmove ulysses_entry (or_intror (or_introl eq_refl)) eq_refl)
        as (Hh & _).
      exact Hh.
  - destruct (restoreArchivedItem_moves_one "no-such-id"
                (mkStore [dune_entry] [emma_entry; ulysses_entry] archivedTab))
      as (_ & Hnone).
    + vm_compute. repeat constructor; cbn; intuition discriminate.
    + apply Hnone. intros e [<-|[<-|[]]]; discriminate.
Defined.

Lemma get_set_field (f g : BookField) (v : string) (d : BookData) :
  get_field g (set_field f v d) =
    match f, g with
    | titleField, titleField | authorField, authorField
    | synopsisField, synopsisField | priceField, priceField
    | categoryField, categoryField => v
    | _, _ => get_field g d
    end.
Proof. destruct f, g; reflexivity. Qed.

Lemma set_set_field (f : BookField) (v1 v2 : string) (d : BookData) :
  set_field f v2 (set_field f v1 d) = set_field f v2 d.
Proof. destruct f; reflexivity. Qed.

Lemma set_field_commute (f g : BookField) (v u : string) (d : BookData) :
  f <> g ->
  set_field f v (set_field g u d) = set_field g u (set_field f v d).
Proof. destruct f, g; intros H; try reflexivity; contradiction. Qed.

(** X15: editing a field of a history entry.  Every entry with the given
    identity reads back the new value in that field and keeps its other
    fields; entries with other identities, the archive, and the order,
    identities, images and timestamps of the history are untouched; an
    identity not in the history makes the edit a no-op; of two edits of
    the same field the last one wins, and edits of different fields
    commute. *)
Theorem updateHistoryField_spec (id : string) (field : BookField)
    (value : string) (st : Store) :
  (forall p item,
     nth_error (history st) p = Some item ->
     exists item',
       nth_error (history (updateHistoryField id field value st)) p
         = Some item' /\
       h_id item' = h_id item /\
       h_image item' = h_image item /\
       h_timestamp item' = h_timestamp item /\
       (h_id item <> id -> item' = item) /\
       (h_id item = id ->
        get_field field (h_data item') = value /\
        forall other, other <> field ->
          get_field other (h_data item') = get_field other (h_data item))) /\
  archived (updateHistoryField id field value st) = archived st /\
  ((forall item, In item (history st) -> h_id item <> id) ->
   updateHistoryField id field value st = st) /\
  (forall value',
     updateHistoryField id field value'
       (updateHistoryField id field value st)
       = updateHistoryField id field value' st) /\
  (forall field' value',
     field' <> field ->
     updateHistoryField id field' value'
       (updateHistoryField id field value st)
       = updateHistoryField id field value
           (updateHistoryField id field' value' st)).
Proof.
  repeat split.
  - intros p item Hp. unfold updateHistoryField. cbn [history].
    rewrite nth_error_map, Hp. cbn [option_map]. eexists.
    split; [reflexivity|]. unfold has_id.
    destruct (String.eqb (h_id item) id) eqn:E.
    + apply String.eqb_eq in E. cbn. repeat split; try congruence.
      * rewrite get_set_field. destruct field; reflexivity.
      * intros other Hne. rewrite get_set_field.
        destruct field, other; try reflexivity; contradiction.
    + apply String.eqb_neq in E. repeat split; try reflexivity; contradiction.
  - intros Hno. unfold updateHistoryField. destruct st as [h a t].
    cbn [history archived activeTab] in *. f_equal.
    rewrite <- (map_id h) at 2. apply map_ext_in. intros item Hin.
    unfold has_id. destruct (String.eqb (h_id item) id) eqn:E; [|reflexivity].
    apply String.eqb_eq in E. exfalso. apply (Hno item Hin E).
  - intros value'. unfold updateHistoryField. cbn [history archived activeTab].
    f_equal. rewrite map_map. apply map_ext. intros item. unfold has_id.
    destruct (String.eqb (h_id item) id) eqn:E; cbn [h_id h_data h_image h_timestamp];
      rewrite E; [|reflexivity].
    rewrite set_set_field. reflexivity.
  - intros field' value' Hne. unfold updateHistoryField.
    cbn [history archived activeTab]. f_equal. rewrite !map_map.
    apply map_ext. intros item. unfold has_id.
    destruct (String.eqb (h_id item) id) eqn:E; cbn [h_id h_data h_image h_timestamp];
      rewrite E; [|reflexivity].
    rewrite set_field_commute by assumption. reflexivity.
Qed.

(** X16: deleting an identity from the history removes every entry with
    that identity and no other, keeps the order of the rest and leaves
    the archive alone (and symmetrically for the archive); deleting an
    identity that is not there changes nothing; an entry deleted from the
    archive can no longer be restored. *)
Theorem delete_entry_spec (id : string) (st : Store) :
  (forall e,
     In e (history (deleteHistoryItem id st)) <->
     In e (history st) /\ h_id e <> id) /\
  archived (deleteHistoryItem id st) = archived st /\
  (forall e,
     In e (archived (deleteArchivedItem id st)) <->
     In e (archived st) /\ h_id e <> id) /\
  history (deleteArchivedItem id st) = history st /\
  ((forall e, In e (history st) -> h_id e <> id) ->
   deleteHistoryItem id st = st) /\
  ((forall e, In e (archived st) -> h_id e <> id) ->
   deleteArchivedItem id st = st) /\
  restoreArchivedItem id (deleteArchivedItem id st)
    = deleteArchivedItem id st.
Proof.
  assert (Hneg : forall e, negb (has_id id e) = true <-> h_id e <> id).
  { intros e. unfold has_id. rewrite negb_true_iff. apply String.eqb_neq. }
  repeat split.
  - apply filter_In in H. tauto.
  - apply filter_In in H. apply Hneg. tauto.
  - intros [Hin Hne]. apply filter_In. split; [assumption | now apply Hneg].
  - apply filter_In in H. tauto.
  - apply filter_In in H. apply Hneg. tauto.
  - intros [Hin Hne]. apply filter_In. split; [assumption | now apply Hneg].
  - intros Hno. unfold deleteHistoryItem. destruct st as [h a t].
    cbn [history archived activeTab] in *. f_equal.
    apply filter_keeps_all. intros x Hx. apply Hneg. auto.
  - intros Hno. unfold deleteArchivedItem. destruct st as [h a t].
    cbn [history archived activeTab] in *. f_equal.
    apply filter_keeps_all. intros x Hx. apply Hneg. auto.
  - unfold restoreArchivedItem.
    assert (Hf : find (has_id id) (archived (deleteArchivedItem id st)) = None).
    { apply find_none_by_id. intros e He. cbn [deleteArchivedItem archived] in He.
      apply filter_In in He. apply Hneg. tauto. }
    rewrite Hf. reflexivity.
Qed.

(** ** Batch Orchestrator, continued *)

Lemma update_by_id_frame {A : Type} (g : BulkImportItem -> A) (id : string)
    (f : BulkImportItem -> BulkImportItem) (l : list BulkImportItem) :
  (forall i, g (f i) = g i) ->
  map g (update_by_id id f l) = map g l.
Proof.
  intros Hf. unfold update_by_id. rewrite map_map. apply map_ext.
  intros i. destruct (String.eqb (b_id i) id); [apply Hf | reflexivity].
Qed.

Lemma bulkLoop_frame {A : Type} (g : BulkImportItem -> A)
    (worlds : nat -> World) (autoCrop : bool) (todo : list BulkImportItem) :
  (forall i, g (mark_processing i) = g i) ->
  (forall r i, g (mark_completed r i) = g i) ->
  (forall i, g (mark_error i) = g i) ->
  forall n state,
    map g (bulkLoop worlds autoCrop n todo state) = map g state.
Proof.
  intros Hp Hc He. induction todo as [|item rest IH]; intros n state;
    [reflexivity|].
  cbn [bulkLoop]. rewrite IH.
  destruct (processImagePipeline (worlds n) (file_dataURL (b_file item)) autoCrop)
    as [e|r]; rewrite !update_by_id_frame; auto.
Qed.

Lemma startBulkProcessing_frame_parts (worlds : nat -> World)
    (autoCrop : bool) (st : Bulk) :
  map b_id (bulkItems (startBulkProcessing worlds autoCrop st))
    = map b_id (bulkItems st) /\
  map (fun i => price (b_data i))
      (bulkItems (startBulkProcessing worlds autoCrop st))
    = map (fun i => price (b_data i)) (bulkItems st).
Proof.
  unfold startBulkProcessing. cbn [bulkItems].
  split; apply bulkLoop_frame; reflexivity.
Qed.

(** X17: whatever the identities and the outcomes of the pipeline calls,
    a run neither adds, removes nor reorders items, and it never changes
    the identity, the file, the preview or the price of any item. *)
Theorem startBulkProcessing_frame (worlds : nat -> World) (autoCrop : bool)
    (st : Bulk) :
  map b_id (bulkItems (startBulkProcessing worlds autoCrop st))
    = map b_id (bulkItems st) /\
  map b_file (bulkItems (startBulkProcessing worlds autoCrop st))
    = map b_file (bulkItems st) /\
  map b_previewUrl (bulkItems (startBulkProcessing worlds autoCrop st))
    = map b_previewUrl (bulkItems st) /\
  map (fun i => price (b_data i))
      (bulkItems (startBulkProcessing worlds autoCrop st))
    = map (fun i => price (b_data i)) (bulkItems st) /\
  length (bulkItems (startBulkProcessing worlds autoCrop st))
    = length (bulkItems st).
Proof.
  unfold startBulkProcessing. cbn [bulkItems].
  repeat split; try (apply bulkLoop_frame; reflexivity).
  rewrite <- (length_map b_id), <- (length_map b_id (bulkItems st)).
  f_equal. apply bulkLoop_frame; reflexivity.
Qed.

Lemma startBulkProcessing_no_idle (worlds : nat -> World) (autoCrop : bool)
    (st : Bulk) :
  NoDup (map b_id (bulkItems st)) ->
  filter is_idle (bulkItems (startBulkProcessing worlds autoCrop st)) = [].
Proof.
  intros Hnd.
  destruct (filter is_idle (bulkItems (startBulkProcessing worlds autoCrop st)))
    as [|i' l] eqn:Hf; [reflexivity|].
  exfalso.
  assert (Hin : In i' (filter is_idle
                         (bulkItems (startBulkProcessing worlds autoCrop st))))
    by (rewrite Hf; left; reflexivity).
  apply filter_In in Hin. destruct Hin as [Hin Hidle].
  apply In_nth_error in Hin. destruct Hin as [p Hp'].
  assert (Hlt : p < length (bulkItems st)).
  { rewrite <- (startBulkProcessing_length worlds autoCrop st Hnd).
    apply nth_error_Some. congruence. }
  destruct (nth_error (bulkItems st) p) as [i|] eqn:Hp;
    [|apply nth_error_None in Hp; lia].
  rewrite (startBulkProcessing_at worlds autoCrop st p i Hnd Hp) in Hp'.
  injection Hp' as <-.
  destruct (is_idle i) eqn:Hi; [|congruence].
  destruct (processImagePipeline (worlds (rank (bulkItems st) p))
              (file_dataURL (b_file i)) autoCrop); discriminate.
Qed.

(** X18: after a run over a batch with pairwise distinct identities no
    item is pending, whatever the pipeline answered; hence a second run,
    in any world, calls nothing and changes no item: failed items are not
    retried. *)
Theorem startBulkProcessing_twice (worlds worlds' : nat -> World)
    (autoCrop autoCrop' : bool) (st : Bulk) :
  NoDup (map b_id (bulkItems st)) ->
  Forall (fun i => b_status i <> idle)
    (bulkItems (startBulkProcessing worlds autoCrop st)) /\
  startBulkProcessing worlds' autoCrop'
    (startBulkProcessing worlds autoCrop st)
    = startBulkProcessing worlds autoCrop st.
Proof.
  intros Hnd.
  pose proof (startBulkProcessing_no_idle worlds autoCrop st Hnd) as Hno.
  split.
  - apply Forall_forall. intros i Hin Hs.
    assert (Hf : In i (filter is_idle
                         (bulkItems (startBulkProcessing worlds autoCrop st)))).
    { apply filter_In. split; [assumption|]. unfold is_idle. now rewrite Hs. }
    rewrite Hno in Hf. contradiction.
  - unfold startBulkProcessing at 1. rewrite Hno. reflexivity.
Qed.

Lemma startBulkProcessing_twice_witness :
  startBulkProcessing (fun _ => world_identifying only_single_category) false
    (startBulkProcessing sample_worlds true sample_batch)
    = startBulkProcessing sample_worlds true sample_batch.
Proof.
  destruct (startBulkProcessing_twice sample_worlds
              (fun _ => world_identifying only_single_category) true false
              sample_batch) as [_ H].
  - vm_compute. repeat constructor; cbn; intuition discriminate.
  - exact H.
Defined.

Lemma map_mapi_from {A B C : Type} (g : B -> C) (f : nat -> A -> B)
    (h : A -> C) (l : list A) :
  (forall k a, g (f k a) = h a) ->
  forall n, map g (mapi_from n f l) = map h l.
Proof.
  intros Hg. induction l as [|a l IH]; intros n; [reflexivity|].
  cbn [mapi_from map]. rewrite Hg, IH. reflexivity.
Qed.

Lemma filter_length_split {A : Type} (p : A -> bool) (l : list A) :
  length l = length (filter p l) + length (filter (fun x => negb (p x)) l).
Proof.
  induction l as [|a l IH]; [reflexivity|].
  cbn [filter]. destruct (p a); cbn [negb length]; lia.
Qed.

Lemma saveBulkToHistory_parts (now : nat -> nat) (b : Bulk) (store : Store) :
  exists newItems,
    history (snd (saveBulkToHistory now b store)) = newItems ++ history store /\
    map h_id newItems = map b_id (filter is_completed (bulkItems b)) /\
    map h_data newItems = map b_data (filter is_completed (bulkItems b)) /\
    bulkItems (fst (saveBulkToHistory now b store))
      = filter (fun i => negb (is_completed i)) (bulkItems b).
Proof.
  unfold saveBulkToHistory. cbn [fst snd history archived bulkItems].
  eexists. split; [reflexivity|].
  split; [apply map_mapi_from; reflexivity|].
  split; [apply map_mapi_from; reflexivity | reflexivity].
Qed.

(** X19: saving the batch moves the completed items, and only them, to
    the front of the history, in batch order and ahead of the older
    entries; each new entry has the identity and the record (price
    included) of its item; the other items stay in the batch in their
    order, the archive is untouched, and no item is lost or duplicated. *)
Theorem saveBulkToHistory_spec (now : nat -> nat) (b : Bulk) (store : Store) :
  exists newItems,
    history (snd (saveBulkToHistory now b store)) = newItems ++ history store /\
    map h_id newItems = map b_id (filter is_completed (bulkItems b)) /\
    map h_data newItems = map b_data (filter is_completed (bulkItems b)) /\
    bulkItems (fst (saveBulkToHistory now b store))
      = filter (fun i => negb (is_completed i)) (bulkItems b) /\
    Forall (fun i => b_status i <> completed)
      (bulkItems (fst (saveBulkToHistory now b store))) /\
    length (bulkItems b)
      = length newItems
        + length (bulkItems (fst (saveBulkToHistory now b store))) /\
    archived (snd (saveBulkToHistory now b store)) = archived store.
Proof.
  unfold saveBulkToHistory. cbn [fst snd history archived bulkItems].
  eexists. split; [reflexivity|].
  split; [apply map_mapi_from; reflexivity|].
  split; [apply map_mapi_from; reflexivity|].
  split; [reflexivity|].
  split.
  - apply Forall_forall. intros i Hin Hs. apply filter_In in Hin.
    destruct Hin as [_ Hneg]. unfold is_completed in Hneg.
    rewrite Hs in Hneg. discriminate.
  - split; [|reflexivity].
    rewrite (filter_length_split is_completed (bulkItems b)).
    f_equal. rewrite <- (length_map h_id).
    rewrite (map_mapi_from h_id _ b_id) by reflexivity.
    symmetry. apply length_map.
Qed.

Lemma intake_prices (randomUUID createObjectURL : nat -> string)
    (files : list File) (n : nat) :
  map (fun i => price (b_data i))
    (mapi_from n (fun k file =>
       mkBulkImportItem (randomUUID k) file (createObjectURL k) idle
         (mkBookData EmptyString EmptyString EmptyString
            (extractPriceFromFilename (file_name file)) EmptyString)
         None None) files)
    = map (fun file => extractPriceFromFilename (file_name file)) files.
Proof. apply map_mapi_from. reflexivity. Qed.

Lemma map_filter_all {A B : Type} (g : A -> B) (p : A -> bool) (l : list A) :
  Forall (fun x => p x = true) l -> map g (filter p l) = map g l.
Proof.
  intros H. rewrite filter_keeps_all; [reflexivity|].
  apply Forall_forall. assumption.
Qed.

(** X20: from selection to history.  Files selected into an empty batch
    under pairwise distinct identities, processed in a run in which every
    pipeline call succeeds, and then saved, leave the batch empty and add
    one history entry per file, in file order, whose price is the leading
    digit run of the name of its file. *)
Theorem intake_run_save (randomUUID createObjectURL : nat -> string)
    (files : list File) (worlds : nat -> World) (autoCrop : bool)
    (now : nat -> nat) (store : Store) :
  let b0 := handleBulkFilesSelected randomUUID createObjectURL files
              (mkBulk [] false) in
  let b1 := startBulkProcessing worlds autoCrop b0 in
  NoDup (map b_id (bulkItems b0)) ->
  (forall p i,
     nth_error (bulkItems b0) p = Some i ->
     exists r,
       processImagePipeline (worlds (rank (bulkItems b0) p))
         (file_dataURL (b_file i)) autoCrop = Return r) ->
  exists newItems,
    history (snd (saveBulkToHistory now b1 store)) = newItems ++ history store /\
    map (fun e => price (h_data e)) newItems
      = map (fun file => extractPriceFromFilename (file_name file)) files /\
    map h_id newItems = map b_id (bulkItems b0) /\
    length newItems = length files /\
    bulkItems (fst (saveBulkToHistory now b1 store)) = [].
Proof.
  intros b0 b1 Hnd Hcalls.
  assert (Hall : Forall (fun i => is_completed i = true) (bulkItems b1)).
  { apply Forall_forall. intros i' Hin.
    apply In_nth_error in Hin. destruct Hin as [p Hp'].
    assert (Hlt : p < length (bulkItems b0)).
    { rewrite <- (startBulkProcessing_length worlds autoCrop b0 Hnd).
      apply nth_error_Some. fold b1. congruence. }
    destruct (nth_error (bulkItems b0) p) as [i|] eqn:Hp;
      [|apply nth_error_None in Hp; lia].
    unfold b1 in Hp'.
    rewrite (startBulkProcessing_at worlds autoCrop b0 p i Hnd Hp) in Hp'.
    assert (Hidle : is_idle i = true).
    { pose proof (nth_error_In _ _ Hp) as Hin.
      unfold b0, handleBulkFilesSelected in Hin. cbn [bulkItems app] in Hin.
      pose proof (intake_items randomUUID createObjectURL files 0) as Hi.
      rewrite Forall_forall in Hi. destruct (Hi i Hin) as [Hs _].
      unfold is_idle. now rewrite Hs. }
    destruct (Hcalls p i Hp) as [r Hr].
    rewrite Hidle, Hr in Hp'. injection Hp' as <-. reflexivity. }
  destruct (saveBulkToHistory_parts now b1 store)
    as (newItems & Hh & Hids & Hdata & Hrest).
  destruct (startBulkProcessing_frame_parts worlds autoCrop b0)
    as (Fid & Fprice).
  fold b1 in Fid, Fprice.
  exists newItems. split; [assumption|].
  assert (Hprices : map (fun e => price (h_data e)) newItems
                    = map (fun i => price (b_data i)) (bulkItems b1)).
  { rewrite <- (map_map h_data price), Hdata, map_map.
    apply map_filter_all. assumption. }
  split.
  { rewrite Hprices, Fprice. unfold b0, handleBulkFilesSelected.
    cbn [bulkItems app]. apply intake_prices. }
  assert (Hids' : map h_id newItems = map b_id (bulkItems b0)).
  { rewrite Hids, (map_filter_all b_id is_completed _ Hall). assumption. }
  split; [assumption|]. split.
  - rewrite <- (length_map h_id), Hids', length_map.
    unfold b0, handleBulkFilesSelected. cbn [bulkItems app].
    rewrite <- (length_map (fun i => price (b_data i))), intake_prices.
    apply length_map.
  - rewrite Hrest.
    destruct (filter (fun i => negb (is_completed i)) (bulkItems b1))
      as [|x l] eqn:Hf; [reflexivity|].
    assert (Hin : In x (filter (fun i => negb (is_completed i)) (bulkItems b1)))
      by (rewrite Hf; left; reflexivity).
    apply filter_In in Hin. destruct Hin as [Hin Hneg].
    rewrite Forall_forall in Hall. rewrite (Hall x Hin) in Hneg. discriminate.
Qed.

Lemma intake_run_save_witness :
  exists newItems,
    history
      (snd (saveBulkToHistory (fun k => k)
              (startBulkProcessing
                 (fun _ => world_identifying only_single_category) true
                 sample_batch)
              (mkStore [emma_entry] [] uploads)))
      = newItems ++ [emma_entry] /\
    map (fun e => price (h_data e)) newItems = ["380"; EmptyString; "250"].
Proof.
  pose proof (intake_run_save sample_uuid (fun _ => "blob:preview")
                sample_files
                (fun _ => world_identifying only_single_category) true
                (fun k => k) (mkStore [emma_entry] [] uploads)) as H.
  cbv zeta in H.
  destruct H as (newItems & Hh & Hp & _).
  - vm_compute. repeat constructor; cbn; intuition discriminate.
  - intros p i Hp.
    destruct p as [|[|[|p]]]; vm_compute in Hp;
      try (injection Hp as <-; vm_compute; eexists; reflexivity).
    destruct p; discriminate.
  - exists newItems. split; [exact Hh | exact Hp].
Defined.

(** ** Export Serializer, continued *)

Lemma undouble_doubled (text rest : string) :
  undouble (JS.replace_all dquote (String dquote (str dquote)) text
              ++ String dquote rest)%string
    = match rest with
      | String d rest' =>
          if Ascii.eqb d dquote
          then (text ++ String dquote (undouble rest'))%string
          else text
      | EmptyString => text
      end.
Proof.
  induction text as [|c text IH].
  - cbn. destruct rest as [|d rest']; [reflexivity|].
    destruct (Ascii.eqb d dquote); reflexivity.
  - cbn [JS.replace_all]. destruct (Ascii.eqb c dquote) eqn:Hc.
    + apply Ascii.eqb_eq in Hc. subst c.
      change ((String dquote (str dquote)
                 ++ JS.replace_all dquote (String dquote (str dquote)) text)
                ++ String dquote rest)%string
        with (String dquote (String dquote
                (JS.replace_all dquote (String dquote (str dquote)) text
                   ++ String dquote rest)))%string.
      cbn [undouble]. rewrite Ascii.eqb_refl. rewrite IH.
      destruct rest as [|d rest']; [reflexivity|].
      destruct (Ascii.eqb d dquote); reflexivity.
    + cbn [append undouble]. rewrite Hc, IH.
      destruct rest as [|d rest']; [reflexivity|].
      destruct (Ascii.eqb d dquote); reflexivity.
Qed.

Lemma unescape_escape (text : string) : unescape (escape text) = text.
Proof.
  unfold escape. destruct text as [|c text]; [reflexivity|].
  cbn [JS.falsy]. unfold str at 1. cbn [append unescape].
  apply (undouble_doubled (String c text) EmptyString).
Qed.

Lemma count_char_app (c : ascii) (a b : string) :
  count_char c (a ++ b) = count_char c a + count_char c b.
Proof.
  induction a as [|d a IH]; [reflexivity|].
  cbn [append count_char]. rewrite IH. lia.
Qed.

Lemma count_quotes_doubled (text : string) :
  count_char dquote (JS.replace_all dquote (String dquote (str dquote)) text)
    = 2 * count_char dquote text.
Proof.
  induction text as [|c text IH]; [reflexivity|].
  cbn [JS.replace_all count_char]. destruct (Ascii.eqb c dquote) eqn:Hc.
  - rewrite count_char_app, IH. cbn. lia.
  - cbn [count_char]. rewrite Hc, IH. lia.
Qed.

(** X21: the [escape] helper loses nothing: the text can be read back from
    the cell by dropping the surrounding quotes and halving the doubled
    ones, so different texts give different cells; and every cell it
    writes holds an even number of quote characters. *)
Theorem escape_round_trip (text : string) :
  unescape (escape text) = text /\
  (forall other, escape other = escape text -> other = text) /\
  Nat.even (count_char dquote (escape text)) = true.
Proof.
  split; [apply unescape_escape|]. split.
  - intros other H. rewrite <- (unescape_escape other), H.
    apply unescape_escape.
  - unfold escape. destruct text as [|c text]; [reflexivity|].
    cbn [JS.falsy]. rewrite !count_char_app, count_quotes_doubled.
    replace (count_char dquote (str dquote)) with 1 by reflexivity.
    replace (1 + (2 * count_char dquote (String c text) + 1))
      with (2 * (1 + count_char dquote (String c text))) by lia.
    rewrite Nat.even_mul. reflexivity.
Qed.

(** *** Slugs *)

Lemma collapse_runs_chars (in_run : bool) (s : string) :
  JS.forall_chars slug_char (collapse_runs in_run s) = true.
Proof.
  revert in_run. induction s as [|c s IH]; intros in_run; [reflexivity|].
  cbn [collapse_runs]. destruct (is_slug_char c) eqn:Hc.
  - cbn [JS.forall_chars]. unfold slug_char at 1. rewrite Hc, IH. reflexivity.
  - destruct in_run; [apply IH|].
    cbn [JS.forall_chars]. rewrite IH. reflexivity.
Qed.

Lemma underscore_not_slug_char : is_slug_char underscore = false.
Proof. reflexivity. Qed.

Lemma collapse_runs_single (in_run : bool) (s : string) :
  no_double_underscore (collapse_runs in_run s) = true /\
  (in_run = true -> first_char (collapse_runs in_run s) <> Some underscore).
Proof.
  revert in_run. induction s as [|c s IH]; intros in_run.
  - cbn. split; [reflexivity | discriminate].
  - cbn [collapse_runs]. destruct (is_slug_char c) eqn:Hc.
    + destruct (IH false) as [Hnd _]. split.
      * cbn [no_double_underscore]. rewrite Hnd.
        assert (Hne : Ascii.eqb c underscore = false).
        { destruct (Ascii.eqb c underscore) eqn:E; [|reflexivity].
          apply Ascii.eqb_eq in E. subst c.
          rewrite underscore_not_slug_char in Hc. discriminate. }
        rewrite Hne. destruct (collapse_runs false s); reflexivity.
      * intros _. cbn [first_char]. intros H. injection H as Heq.
        rewrite Heq, underscore_not_slug_char in Hc. discriminate.
    + destruct (IH true) as [Hnd Hfirst]. destruct in_run.
      * split; [assumption | intros _; apply Hfirst; reflexivity].
      * split; [|discriminate].
        cbn [no_double_underscore]. rewrite Hnd.
        specialize (Hfirst eq_refl).
        destruct (collapse_runs true s) as [|d rest]; [reflexivity|].
        cbn [first_char] in Hfirst. rewrite Ascii.eqb_refl. cbn [andb].
        destruct (Ascii.eqb d underscore) eqn:E; [|reflexivity].
        apply Ascii.eqb_eq in E. exfalso. apply Hfirst. now rewrite E.
Qed.

Lemma strip_leading_suffix (c : ascii) (s : string) :
  exists dropped, s = (dropped ++ strip_leading c s)%string.
Proof.
  induction s as [|d s [dropped IH]]; [exists EmptyString; reflexivity|].
  cbn [strip_leading]. destruct (Ascii.eqb d c).
  - exists (String d dropped). cbn [append]. congruence.
  - exists EmptyString. reflexivity.
Qed.

Lemma strip_leading_first (c : ascii) (s : string) :
  first_char (strip_leading c s) <> Some c.
Proof.
  induction s as [|d s IH]; [discriminate|].
  cbn [strip_leading]. destruct (Ascii.eqb d c) eqn:E; [assumption|].
  cbn [first_char]. intros H. injection H as Heq.
  rewrite Heq, Ascii.eqb_refl in E. discriminate.
Qed.

Lemma strip_trailing_prefix (c : ascii) (s : string) :
  exists dropped, s = (strip_trailing c s ++ dropped)%string.
Proof.
  induction s as [|d s [dropped IH]]; [exists EmptyString; reflexivity|].
  cbn [strip_trailing]. destruct (strip_trailing c s) as [|e rest'] eqn:Hs.
  - destruct (Ascii.eqb d c).
    + exists (String d s). reflexivity.
    + exists s. reflexivity.
  - exists dropped. cbn [append] in *. congruence.
Qed.

Lemma strip_trailing_last (c : ascii) (s : string) :
  last_char (strip_trailing c s) <> Some c.
Proof.
  induction s as [|d s IH]; [discriminate|].
  cbn [strip_trailing]. destruct (strip_trailing c s) as [|e rest'] eqn:Hs.
  - destruct (Ascii.eqb d c) eqn:E; [discriminate|].
    cbn [last_char str]. intros H. injection H as Heq.
    rewrite Heq, Ascii.eqb_refl in E. discriminate.
  - exact IH.
Qed.

Lemma forall_chars_app (p : ascii -> bool) (a b : string) :
  JS.forall_chars p (a ++ b) = JS.forall_chars p a && JS.forall_chars p b.
Proof.
  induction a as [|c a IH]; [reflexivity|].
  cbn [append JS.forall_chars]. rewrite IH. apply andb_assoc.
Qed.

Lemma no_double_underscore_app (a b : string) :
  no_double_underscore (a ++ b) = true ->
  no_double_underscore a = true /\ no_double_underscore b = true.
Proof.
  induction a as [|c a IH]; intros H; [split; [reflexivity | assumption]|].
  cbn [append no_double_underscore] in H. apply andb_true_iff in H.
  destruct H as [Hhead Hrest]. destruct (IH Hrest) as [Ha Hb].
  split; [|assumption].
  cbn [no_double_underscore]. rewrite Ha, andb_true_r.
  destruct a as [|d a]; [reflexivity|]. exact Hhead.
Qed.

(** X22: the slug derived from a title is safe as a file name: it holds
    only lower-case letters, digits and underscores, it neither starts
    nor ends with an underscore, and it never holds two underscores in a
    row. *)
Theorem safeTitle_is_slug (t : string) :
  JS.forall_chars slug_char (safeTitle t) = true /\
  first_char (safeTitle t) <> Some underscore /\
  last_char (safeTitle t) <> Some underscore /\
  no_double_underscore (safeTitle t) = true.
Proof.
  unfold safeTitle.
  set (collapsed := collapse_runs false (JS.toLowerCase (trim t))).
  pose proof (collapse_runs_chars false (JS.toLowerCase (trim t))) as Hchars.
  destruct (collapse_runs_single false (JS.toLowerCase (trim t))) as [Hnd _].
  fold collapsed in Hchars, Hnd.
  destruct (strip_leading_suffix underscore collapsed) as [d1 E1].
  set (stripped := strip_leading underscore collapsed) in *.
  destruct (strip_trailing_prefix underscore stripped) as [d2 E2].
  pose proof (strip_leading_first underscore collapsed) as Hfirst.
  fold stripped in Hfirst.
  rewrite E1, forall_chars_app in Hchars. apply andb_true_iff in Hchars.
  destruct Hchars as [_ Hchars].
  rewrite E1 in Hnd. apply no_double_underscore_app in Hnd.
  destruct Hnd as [_ Hnd].
  rewrite E2, forall_chars_app in Hchars. apply andb_true_iff in Hchars.
  destruct Hchars as [Hchars _].
  rewrite E2 in Hnd. apply no_double_underscore_app in Hnd.
  destruct Hnd as [Hnd _].
  repeat split; try assumption.
  - intros H. apply Hfirst. rewrite E2.
    destruct (strip_trailing underscore stripped); [discriminate | exact H].
  - apply strip_trailing_last.
Qed.

Example safeTitle_example :
  safeTitle "  Drake & Saint Helena!! " = "drake_saint_helena".
Proof. reflexivity. Qed.

(** *** Image names *)

Lemma length_append (a b : string) :
  String.length (a ++ b) = String.length a + String.length b.
Proof. induction a as [|c a IH]; [reflexivity|]. cbn. now rewrite IH. Qed.

Lemma substring_skip (a s : string) (m : nat) :
  String.substring (String.length a) m (a ++ s) = String.substring 0 m s.
Proof. induction a as [|c a IH]; [reflexivity|]. cbn. exact IH. Qed.

Lemma substring_prefix (b s : string) :
  String.substring 0 (String.length b) (b ++ s) = b.
Proof.
  induction b as [|c b IH]; [destruct s; reflexivity|].
  cbn. now rewrite IH.
Qed.

Lemma indexOf_bounds (c : ascii) (s : string) :
  (-1 <= indexOf c s < Z.of_nat (String.length s))%Z.
Proof.
  induction s as [|d s IH]; [cbn; lia|].
  cbn [indexOf String.length]. destruct (Ascii.eqb d c); [lia|].
  destruct (indexOf c s <? 0)%Z eqn:E; [lia|].
  apply Z.ltb_ge in E. lia.
Qed.

Lemma indexOf_first (c : ascii) (a b : string) :
  count_char c a = 0 ->
  indexOf c (a ++ String c b) = Z.of_nat (String.length a).
Proof.
  induction a as [|d a IH]; intros H.
  - cbn. now rewrite Ascii.eqb_refl.
  - cbn [count_char] in H. cbn [append indexOf String.length].
    destruct (Ascii.eqb d c); [discriminate|].
    rewrite IH by assumption.
    destruct (Z.of_nat (String.length a) <? 0)%Z eqn:E;
      [apply Z.ltb_lt in E; lia | lia].
Qed.

(** X23: the archive name of an entry.  For an image that is a data URL
    of the form [data:image/EXT;base64,PAYLOAD], where [EXT] holds neither
    a slash nor a semicolon, the name is the slug of the title, an
    underscore, the whole identity, a dot and [EXT], and the Images cell
    of the row is the upload URL followed by that name.  For an entry
    whose image is empty or does not start with [data:image], the name
    and the Images cell are empty. *)
Theorem imageName_spec (date : Date) (item : HistoryItem) :
  (forall ext payload,
     h_image item = ("data:image/" ++ ext ++ ";base64," ++ payload)%string ->
     count_char slash ext = 0 ->
     count_char semicolon ext = 0 ->
     hasEmbeddedImage item = true /\
     imageName item
       = (safeTitle (title (h_data item)) ++ "_" ++ h_id item ++ "." ++ ext)%string /\
     nth 12 (row date item) EmptyString
       = (baseUrl date ++ imageName item)%string) /\
  (hasEmbeddedImage item = false ->
   imageName item = EmptyString /\
   nth 12 (row date item) EmptyString = EmptyString).
Proof.
  split.
  - intros ext payload Himg Hslash Hsemi.
    assert (Hemb : hasEmbeddedImage item = true).
    { unfold hasEmbeddedImage. rewrite Himg. reflexivity. }
    assert (Hname : imageName item
              = (safeTitle (title (h_data item)) ++ "_" ++ h_id item ++ "."
                   ++ ext)%string).
    { unfold imageName. rewrite Hemb. do 4 f_equal.
      rewrite Himg.
      assert (Hi1 : indexOf slash
                      ("data:image/" ++ ext ++ ";base64," ++ payload)%string
                    = 10%Z).
      { apply (indexOf_first slash "data:image"
                 (ext ++ ";base64," ++ payload)%string). reflexivity. }
      assert (Hi2 : indexOf semicolon
                      ("data:image/" ++ ext ++ ";base64," ++ payload)%string
                    = Z.of_nat (11 + String.length ext)).
      { change ("data:image/" ++ ext ++ ";base64," ++ payload)%string
          with ("data:image/" ++ (ext ++ String semicolon ("base64," ++ payload)))%string.
        replace ("data:image/" ++ (ext ++ String semicolon ("base64," ++ payload)))%string
          with (("data:image/" ++ ext) ++ String semicolon ("base64," ++ payload))%string
          by reflexivity.
        rewrite indexOf_first.
        - rewrite length_append. reflexivity.
        - rewrite count_char_app, Hsemi. reflexivity. }
      rewrite Hi1, Hi2. unfold substring.
      rewrite !length_append.
      replace (String.length "data:image/") with 11 by reflexivity.
      replace (String.length ";base64,") with 8 by reflexivity.
      set (n := String.length ext). set (k := String.length payload).
      replace (Z.to_nat _) with 11 by lia.
      replace (Z.to_nat _) with n by lia.
      apply (eq_trans (substring_skip "data:image/" _ n)).
      apply substring_prefix. }
    split; [assumption|]. split; [assumption|].
    cbn [row nth]. unfold imageUrl. rewrite Hname.
    destruct (safeTitle (title (h_data item))); reflexivity.
  - intros Hno. unfold imageName. rewrite Hno. split; [reflexivity|].
    cbn [row nth]. unfold imageUrl, imageName. rewrite Hno. reflexivity.
Qed.

Example imageName_dune :
  imageName dune_entry = "dune_d397e01b-0828-4277-aa1a-dd7247db2426.jpeg".
Proof. reflexivity. Qed.

(** X24: the archive file holds one image per entry with an embedded
    image, in history order and under its archive name, followed by the
    table [products.csv]; entries without an embedded image contribute no
    file. *)
Theorem zipFiles_names (date : Date) (items : list HistoryItem) :
  map fst (zipFiles date items)
    = map imageName (filter hasEmbeddedImage items) ++ ["products.csv"] /\
  length (zipFiles date items)
    = S (length (filter hasEmbeddedImage items)) /\
  last (zipFiles date items) (EmptyString, EmptyString)
    = ("products.csv", csvContent date items).
Proof.
  unfold zipFiles.
  assert (Hnames :
    map fst (flat_map (fun item =>
                         if hasEmbeddedImage item
                         then [(imageName item, base64Data (h_image item))]
                         else []) items)
      = map imageName (filter hasEmbeddedImage items)).
  { induction items as [|a l IH]; [reflexivity|].
    cbn [flat_map filter]. destruct (hasEmbeddedImage a);
      cbn [app map fst]; now rewrite IH. }
  split; [rewrite map_app, Hnames; reflexivity|]. split.
  - rewrite length_app, <- (length_map fst), Hnames, length_map. cbn. lia.
  - apply last_last.
Qed.

Lemma substring_whole (s : string) :
  String.substring 0 (String.length s) s = s.
Proof. induction s as [|c s IH]; [reflexivity|]. cbn. now rewrite IH. Qed.

(** X25: the image data written to the archive is the part of the data
    URL after its header for the PNG, JPEG, JPG and WEBP headers; an
    image with any other beginning is passed on as it is. *)
Theorem base64Data_strips_header (payload image : string) :
  base64Data ("data:image/png;base64," ++ payload) = payload /\
  base64Data ("data:image/jpeg;base64," ++ payload) = payload /\
  base64Data ("data:image/jpg;base64," ++ payload) = payload /\
  base64Data ("data:image/webp;base64," ++ payload) = payload /\
  (JS.startsWith "data:image/png;base64," image = false ->
   JS.startsWith "data:image/jpeg;base64," image = false ->
   JS.startsWith "data:image/jpg;base64," image = false ->
   JS.startsWith "data:image/webp;base64," image = false ->
   base64Data image = image).
Proof.
  assert (Hnil : forall s, String.prefix EmptyString s = true)
    by (intros s; destruct s; reflexivity).
  repeat split;
    try (cbn; rewrite Hnil, Nat.sub_0_r; apply substring_whole).
  intros H1 H2 H3 H4. unfold base64Data. cbn [strip_first_prefix].
  rewrite H1, H2, H3, H4. reflexivity.
Qed.

(** X26: the upload directory of the image URLs is the year, a slash and
    the month of the export date written with exactly two digits. *)
Theorem baseUrl_month_two_digits (date : Date) :
  monthIndex date < 12 ->
  exists mm,
    baseUrl date
      = ("https://hemingwaysbooks.co.za/wp-content/uploads/"
           ++ decimal (fullYear date) ++ "/" ++ mm ++ "/")%string /\
    String.length mm = 2 /\
    JS.forall_chars JS.is_digit mm = true /\
    (monthIndex date < 9 ->
     mm = String "0" (decimal (monthIndex date + 1))).
Proof.
  intros Hm. unfold baseUrl. eexists. split; [reflexivity|].
  destruct date as [y m]. cbn [monthIndex] in *.
  do 12 (destruct m as [|m]; [repeat split; intros; reflexivity || lia|]).
  lia.
Qed.

Lemma baseUrl_month_two_digits_witness :
  exists mm,
    baseUrl (mkDate 2026 0)
      = ("https://hemingwaysbooks.co.za/wp-content/uploads/"
           ++ decimal 2026 ++ "/" ++ mm ++ "/")%string /\
    mm = "01".
Proof.
  destruct (baseUrl_month_two_digits (mkDate 2026 0)) as (mm & Hb & _ & _ & Hz).
  - cbn. lia.
  - exists mm. split; [exact Hb|]. apply Hz. cbn. lia.
Defined.

(** *** Lines of the table *)

Lemma count_replace_all (x c : ascii) (r s : string) :
  count_char x r = 0 -> count_char x s = 0 ->
  count_char x (JS.replace_all c r s) = 0.
Proof.
  intros Hr. induction s as [|d s IH]; intros Hs; [reflexivity|].
  cbn [count_char] in Hs. cbn [JS.replace_all].
  destruct (Ascii.eqb d c).
  - rewrite count_char_app, Hr, IH by lia. reflexivity.
  - cbn [count_char]. rewrite IH by lia. lia.
Qed.

Lemma count_string_substring (x : ascii) (s : string) :
  count_char x s = 0 ->
  forall n m, count_char x (String.substring n m s) = 0.
Proof.
  induction s as [|d s IH]; intros Hs n m.
  - destruct n, m; reflexivity.
  - cbn [count_char] in Hs. destruct n as [|n].
    + destruct m as [|m]; [reflexivity|].
      cbn [String.substring count_char]. rewrite IH by lia. lia.
    + cbn [String.substring]. apply IH. lia.
Qed.

Lemma count_forall_chars (x : ascii) (p : ascii -> bool) (s : string) :
  p x = false -> JS.forall_chars p s = true -> count_char x s = 0.
Proof.
  intros Hx. induction s as [|d s IH]; intros Hs; [reflexivity|].
  cbn [JS.forall_chars] in Hs. apply andb_true_iff in Hs.
  destruct Hs as [Hd Hs]. cbn [count_char]. rewrite IH by assumption.
  destruct (Ascii.eqb d x) eqn:E; [|reflexivity].
  apply Ascii.eqb_eq in E. subst d. congruence.
Qed.

Lemma safeTitle_chars (t : string) :
  JS.forall_chars slug_char (safeTitle t) = true.
Proof.
  unfold safeTitle.
  set (collapsed := collapse_runs false (JS.toLowerCase (trim t))).
  pose proof (collapse_runs_chars false (JS.toLowerCase (trim t))) as Hchars.
  fold collapsed in Hchars.
  destruct (strip_leading_suffix underscore collapsed) as [d1 E1].
  set (stripped := strip_leading underscore collapsed) in *.
  destruct (strip_trailing_prefix underscore stripped) as [d2 E2].
  rewrite E1, forall_chars_app in Hchars. apply andb_true_iff in Hchars.
  destruct Hchars as [_ Hchars].
  rewrite E2, forall_chars_app in Hchars. apply andb_true_iff in Hchars.
  tauto.
Qed.

Lemma digit_is_not (x d : ascii) :
  JS.is_digit x = false -> JS.is_digit d = true -> Ascii.eqb d x = false.
Proof.
  intros Hx Hd. destruct (Ascii.eqb d x) eqn:E; [|reflexivity].
  apply Ascii.eqb_eq in E. congruence.
Qed.

Lemma count_uint (x : ascii) (u : Decimal.uint) :
  JS.is_digit x = false ->
  count_char x (DecimalString.NilEmpty.string_of_uint u) = 0.
Proof.
  intros Hx.
  induction u; cbn [DecimalString.NilEmpty.string_of_uint count_char];
    [reflexivity | ..];
    match goal with
    | |- context [Ascii.eqb ?d x] =>
        rewrite (digit_is_not x d Hx eq_refl), IHu; reflexivity
    end.
Qed.

Lemma count_decimal (x : ascii) (n : nat) :
  JS.is_digit x = false -> count_char x (decimal n) = 0.
Proof.
  intros Hx. unfold decimal, DecimalString.NilZero.string_of_uint.
  destruct (Nat.to_uint n) eqn:E;
    try (rewrite <- E; apply count_uint; assumption).
  cbn [count_char]. rewrite (digit_is_not x "0" Hx eq_refl). reflexivity.
Qed.

Lemma count_line_feed_escape (text : string) :
  count_char line_feed text = 0 -> count_char line_feed (escape text) = 0.
Proof.
  intros H. unfold escape. destruct (JS.falsy text); [reflexivity|].
  rewrite !count_char_app, count_replace_all by (assumption || reflexivity).
  reflexivity.
Qed.

Lemma count_line_feed_substring (s : string) (a b : Z) :
  count_char line_feed s = 0 -> count_char line_feed (substring s a b) = 0.
Proof. intros H. unfold substring. apply count_string_substring. assumption. Qed.

Lemma count_line_feed_imageUrl (date : Date) (item : HistoryItem) :
  count_char line_feed (h_id item) = 0 ->
  count_char line_feed (h_image item) = 0 ->
  count_char line_feed (imageUrl date item) = 0.
Proof.
  intros Hid Himg. unfold imageUrl.
  destruct (JS.falsy (imageName item)); [reflexivity|].
  unfold baseUrl, imageName.
  rewrite !count_char_app, !count_decimal by reflexivity.
  assert (Hpad : count_char line_feed
                   (padStart2 (decimal (monthIndex date + 1))) = 0).
  { unfold padStart2.
    pose proof (count_decimal line_feed (monthIndex date + 1) eq_refl) as Hd.
    destruct (String.length (decimal (monthIndex date + 1))) as [|[|k]];
      [reflexivity | cbn [count_char]; rewrite Hd; reflexivity | assumption]. }
  rewrite Hpad.
  destruct (hasEmbeddedImage item); [|reflexivity].
  rewrite !count_char_app, Hid, count_line_feed_substring by assumption.
  rewrite (count_forall_chars line_feed slug_char _ eq_refl (safeTitle_chars _)).
  reflexivity.
Qed.

Lemma count_concat_zero (x : ascii) (sep : string) (cells : list string) :
  count_char x sep = 0 ->
  Forall (fun cell => count_char x cell = 0) cells ->
  count_char x (String.concat sep cells) = 0.
Proof.
  intros Hsep H. induction H as [|cell rest Hcell Hrest IH]; [reflexivity|].
  destruct rest as [|y rest]; [exact Hcell|].
  change (String.concat sep (cell :: y :: rest))
    with (cell ++ sep ++ String.concat sep (y :: rest))%string.
  rewrite !count_char_app, Hcell, Hsep, IH. reflexivity.
Qed.

Lemma row_single_line (date : Date) (item : HistoryItem) :
  single_line_entry item ->
  count_char line_feed (csvLine (row date item)) = 1.
Proof.
  intros (Hid & Himg & Ht & Ha & Hs & Hp & Hc).
  unfold csvLine. rewrite count_char_app.
  replace (count_char line_feed newline) with 1 by reflexivity.
  unfold JS.join. rewrite count_concat_zero; [reflexivity | reflexivity |].
  unfold row. repeat apply Forall_cons; try apply Forall_nil.
  - reflexivity.
  - apply count_line_feed_escape, count_line_feed_substring. exact Hid.
  - apply count_line_feed_escape.
    rewrite !count_char_app, Ht, Ha. reflexivity.
  - apply count_line_feed_escape. exact Hs.
  - apply count_line_feed_escape. exact Hs.
  - reflexivity.
  - exact Hp.
  - reflexivity.
  - reflexivity.
  - reflexivity.
  - reflexivity.
  - reflexivity.
  - apply count_line_feed_imageUrl; assumption.
  - reflexivity.
  - apply count_line_feed_escape, count_replace_all; [reflexivity | exact Hc].
  - apply count_line_feed_escape. exact Ha.
Qed.

Lemma append_nil_r (s : string) : (s ++ EmptyString)%string = s.
Proof. induction s as [|c s IH]; [reflexivity|]. cbn. now rewrite IH. Qed.

Lemma append_assoc (x y z : string) :
  ((x ++ y) ++ z)%string = (x ++ (y ++ z))%string.
Proof. induction x as [|c x IH]; [reflexivity|]. cbn. now rewrite IH. Qed.

Lemma concat_nil_cons (x : string) (l : list string) :
  String.concat EmptyString (x :: l)
    = (x ++ String.concat EmptyString l)%string.
Proof.
  destruct l as [|y l]; [cbn [String.concat]; now rewrite append_nil_r|].
  reflexivity.
Qed.

Lemma csvContent_unfold (date : Date) (items : list HistoryItem) (acc : string) :
  fold_left (fun acc item => (acc ++ csvLine (row date item))%string) items acc
    = (acc ++ String.concat EmptyString
                (map (fun item => csvLine (row date item)) items))%string.
Proof.
  revert acc. induction items as [|a l IH]; intros acc.
  - cbn [fold_left map String.concat]. now rewrite append_nil_r.
  - cbn [fold_left map]. rewrite IH, concat_nil_cons, append_assoc.
    reflexivity.
Qed.

(** X27: the table is the header line followed by one line per history
    entry, in history order; and when no field of any entry holds a line
    feed, the table has exactly one line feed per entry plus one for the
    header. *)
Theorem csvContent_lines (date : Date) (items : list HistoryItem) :
  csvContent date items
    = (csvLine headers
         ++ String.concat EmptyString
              (map (fun item => csvLine (row date item)) items))%string /\
  (Forall single_line_entry items ->
   count_char line_feed (csvContent date items) = S (length items)).
Proof.
  split; [exact (csvContent_unfold date items (csvLine headers))|].
  intros Hall. unfold csvContent. rewrite csvContent_unfold, count_char_app.
  replace (count_char line_feed (csvLine headers)) with 1 by reflexivity.
  assert (Hrows :
    count_char line_feed
      (String.concat EmptyString
         (map (fun item => csvLine (row date item)) items))
      = length items).
  { induction Hall as [|a l Ha Hl IH]; [reflexivity|].
    cbn [map length].
    rewrite concat_nil_cons, count_char_app, IH, (row_single_line date a Ha).
    reflexivity. }
  rewrite Hrows. reflexivity.
Qed.

(** ** Raw input boundary *)

(** X28: the uploader hands over image files only.  The callback is not
    called when no dropped file has an image type; otherwise it receives a
    non-empty list made of files whose type starts with [image/]: all of
    them, in their order, in multiple mode, and only the first of them in
    single mode. *)
Theorem processFiles_spec (multiple : bool) (files : list Uploader.Candidate) :
  (Uploader.processFiles multiple files = None <->
   Forall (fun c => Uploader.is_image c = false) files) /\
  (forall delivered,
     Uploader.processFiles multiple files = Some delivered ->
     delivered <> [] /\
     (forall f, In f delivered ->
        exists c, In c files /\ Uploader.is_image c = true /\
                  Uploader.c_file c = f) /\
     (multiple = true ->
      delivered = map Uploader.c_file (filter Uploader.is_image files)) /\
     (multiple = false ->
      exists first rest,
        map Uploader.c_file (filter Uploader.is_image files) = first :: rest /\
        delivered = [first])).
Proof.
  unfold Uploader.processFiles.
  assert (Hsrc : forall f,
            In f (map Uploader.c_file (filter Uploader.is_image files)) ->
            exists c, In c files /\ Uploader.is_image c = true /\
                      Uploader.c_file c = f).
  { intros f Hin. apply in_map_iff in Hin. destruct Hin as (c & Hc & Hin).
    apply filter_In in Hin. exists c. tauto. }
  split.
  - split.
    + intros H. apply Forall_forall. intros c Hin.
      destruct (Uploader.is_image c) eqn:E; [|reflexivity].
      assert (Hf : In (Uploader.c_file c)
                     (map Uploader.c_file (filter Uploader.is_image files))).
      { apply in_map. apply filter_In. tauto. }
      destruct (map Uploader.c_file (filter Uploader.is_image files));
        [contradiction|].
      destruct multiple; discriminate.
    + intros H.
      assert (Hnil : filter Uploader.is_image files = []).
      { clear Hsrc. induction H as [|c l Hc Hl IH]; [reflexivity|].
        cbn [filter]. rewrite Hc. exact IH. }
      rewrite Hnil. reflexivity.
  - intros delivered H.
    destruct (map Uploader.c_file (filter Uploader.is_image files))
      as [|first rest] eqn:E; [discriminate|].
    destruct multiple; injection H as <-.
    + repeat split; try discriminate.
      * exact Hsrc.
    + repeat split; try discriminate.
      * intros f [<-|[]]. apply Hsrc. left. reflexivity.
      * intros _. exists first, rest. split; reflexivity.
Qed.

(** X29: a drop of several files onto the scanner (single mode) makes the
    scanner work on the first image among them: the record's price comes
    from the name of that file, whatever else was dropped. *)
Theorem scanner_takes_first_image (w : World)
    (files : list Uploader.Candidate) (st : Scanner) (first : File)
    (result : PipelineResult) :
  hd_error (map Uploader.c_file (filter Uploader.is_image files))
    = Some first ->
  processImagePipeline w (file_dataURL first) (s_autoCrop st) = Return result ->
  exists delivered record,
    Uploader.processFiles false files = Some delivered /\
    s_bookData (handleScannerFileSelected w delivered st) = Some record /\
    price record = extractPriceFromFilename (file_name first).
Proof.
  intros Hfirst Hrun. unfold Uploader.processFiles.
  destruct (map Uploader.c_file (filter Uploader.is_image files))
    as [|f rest]; [discriminate|].
  injection Hfirst as ->.
  exists [first]. eexists. split; [reflexivity|].
  unfold handleScannerFileSelected. rewrite Hrun. split; reflexivity.
Qed.

Lemma scanner_takes_first_image_witness :
  exists delivered record,
    Uploader.processFiles false
      [Uploader.mkCandidate "application/pdf" (mkFile "999.pdf" "data:,");
       Uploader.mkCandidate "image/jpeg"
         (mkFile "380.1.jpg" "data:image/jpeg;base64,AAAA");
       Uploader.mkCandidate "image/png"
         (mkFile "12.png" "data:image/png;base64,BBBB")]
      = Some delivered /\
    s_bookData
      (handleScannerFileSelected (world_identifying only_single_category)
         delivered (mkScanner None IDLE None None true)) = Some record /\
    price record = "380".
Proof.
  destruct (scanner_takes_first_image
              (world_identifying only_single_category)
              [Uploader.mkCandidate "application/pdf"
                 (mkFile "999.pdf" "data:,");
               Uploader.mkCandidate "image/jpeg"
                 (mkFile "380.1.jpg" "data:image/jpeg;base64,AAAA");
               Uploader.mkCandidate "image/png"
                 (mkFile "12.png" "data:image/png;base64,BBBB")]
              (mkScanner None IDLE None None true)
              (mkFile "380.1.jpg" "data:image/jpeg;base64,AAAA")
              (mkPipelineResult "Dune" "Frank Herbert" "Fiction"
                 "A synopsis." "data:image/jpeg;base64,AAAA")
              eq_refl eq_refl)
    as (delivered & record & Hd & Hb & Hp).
  exists delivered, record. split; [exact Hd|]. split; [exact Hb | exact Hp].
Defined.
